(** * keyhole: shard topology to connection URIs ([mdb/shards.go])

    A shallow embedding of [GetAllShardURIs], [GetAllServerURIs] and
    [GetQueryParams] together with the parts of Go's [strings], [net/url] and
    [fmt] packages they call, followed by the properties of the resolver.

    Conventions of the embedding:
    - a Go [string] is a [string] (a sequence of bytes); a Go [int] is a [Z]
      (every integer below is a string length or an index, far from 2^63);
    - an out-of-range slice expression panics: slicing lives in the monad [M]
      and yields [Panic];
    - [range] over a Go map visits the entries in an order the language leaves
      unspecified, and the order may change from one [range] statement to the
      next: each [range] draws its order from an oracle that is threaded
      through [M] as state. *)

From Stdlib Require Import ZArith Ascii String List Lia.
From stdpp Require Import base gmap strings list pretty sorting.

Local Open Scope Z_scope.

(** stdpp keeps [simpl] from unfolding string concatenation; the proofs below
    compute with it. *)
#[local] Arguments String.append !_ _ / : simpl nomatch.

(** ** Go strings *)

Module GoStrings.

(** [len(s)] *)
Definition len (s : string) : Z := Z.of_nat (String.length s).

(** [strings.HasPrefix(s, prefix)] *)
Fixpoint HasPrefix (s prefix : string) {struct prefix} : bool :=
  match prefix, s with
  | EmptyString, _ => true
  | String _ _, EmptyString => false
  | String b p', String a s' => if Ascii.eqb a b then HasPrefix s' p' else false
  end.

(** Position of the first occurrence of [substr] in [s], if any. *)
Fixpoint index_of (s substr : string) : option nat :=
  if HasPrefix s substr then Some 0%nat
  else match s with
       | EmptyString => None
       | String _ s' => S <$> index_of s' substr
       end.

(** [strings.Index(s, substr)]: -1 when [substr] does not occur. *)
Definition Index (s substr : string) : Z :=
  match index_of s substr with
  | Some n => Z.of_nat n
  | None => -1
  end.

(** [strings.Contains(s, substr)], which Go defines as [Index(s, substr) >= 0]. *)
Definition Contains (s substr : string) : bool := 0 <=? Index s substr.

(** The first [n] bytes of [s], and what follows them. *)
Fixpoint take (n : nat) (s : string) : string :=
  match n, s with
  | S n', String a s' => String a (take n' s')
  | _, _ => EmptyString
  end.

Fixpoint drop (n : nat) (s : string) : string :=
  match n, s with
  | S n', String _ s' => drop n' s'
  | _, _ => s
  end.

(** [strings.Split(s, sep)] for a one-byte separator, the only kind the
    resolver passes ([","] and ["."]). The result is never empty:
    [Split("", ",")] is the one-element slice holding [""]. *)
Fixpoint Split (s : string) (sep : ascii) : list string :=
  match s with
  | EmptyString => [EmptyString]
  | String a s' =>
      if Ascii.eqb a sep then EmptyString :: Split s' sep
      else match Split s' sep with
           | h :: t => String a h :: t
           | [] => [String a EmptyString]
           end
  end.

(** [strings.Join(elems, sep)] *)
Definition Join (elems : list string) (sep : string) : string :=
  String.concat sep elems.

(** [strings.NewReplacer(old1, new1, old2, new2, ...).Replace(s)]: scan [s]
    from the left; at each position the first pair, in argument order, whose
    [old] starts there is replaced by its [new] and the scan resumes after
    it; otherwise the byte is copied. Every [old] passed by the resolver is
    non-empty. [skip] counts the bytes of a matched [old] still to pass. *)
Fixpoint replace_go (pairs : list (string * string)) (s : string) (skip : nat)
  : string :=
  match s with
  | EmptyString => EmptyString
  | String a s' =>
      match skip with
      | S k => replace_go pairs s' k
      | O =>
          match List.find (fun p => HasPrefix s (fst p)) pairs with
          | Some (old, new) =>
              new +:+ replace_go pairs s' (String.length old - 1)%nat
          | None => String a (replace_go pairs s' 0%nat)
          end
      end
  end.

Definition Replace (pairs : list (string * string)) (s : string) : string :=
  replace_go pairs s 0%nat.

(** [url.QueryEscape]: letters, digits and [-_.~] are kept, a space becomes
    [+], every other byte becomes [%XX] in upper-case hexadecimal. *)
Definition shouldEscape (c : ascii) : bool :=
  let n := N_of_ascii c in
  if ((97 <=? n) && (n <=? 122) || (65 <=? n) && (n <=? 90)
      || (48 <=? n) && (n <=? 57))%N then false
  else if ((n =? 45) || (n =? 95) || (n =? 46) || (n =? 126))%N then false
  else true.

Definition upperhex (d : N) : ascii :=
  if (d <? 10)%N then ascii_of_N (48 + d) else ascii_of_N (55 + d).

Fixpoint QueryEscape (s : string) : string :=
  match s with
  | EmptyString => EmptyString
  | String c s' =>
      if shouldEscape c then
        if Ascii.eqb c " " then String "+" (QueryEscape s')
        else String "%" (String (upperhex (N_of_ascii c / 16))
               (String (upperhex (N_of_ascii c mod 16)) (QueryEscape s')))
      else String c (QueryEscape s')
  end.

(** [s != ""] *)
Definition nonempty (s : string) : bool :=
  match s with EmptyString => false | String _ _ => true end.

End GoStrings.

Import GoStrings.

(** ** Panics and the map-iteration oracle *)

Inductive result (A : Type) : Type :=
| Ok (a : A)
| Panic.
Arguments Ok {A} a.
Arguments Panic {A}.

(** Code that can panic but does not iterate over a map runs in [result]. *)
Definition bindR {A B} (r : result A) (k : A -> result B) : result B :=
  match r with
  | Ok a => k a
  | Panic => Panic
  end.

Notation "'let?' x := r 'in' k" := (bindR r (fun x => k))
  (at level 10, x pattern, r at level 200, k at level 200).

(** One number per [range] statement over a map: the index, among the
    permutations of the map's entries, of the order this [range] takes. *)
Definition Oracle : Type := list nat.

Definition M (A : Type) : Type := Oracle -> result (A * Oracle).

Definition ret {A} (a : A) : M A := fun o => Ok (a, o).

Definition bind {A B} (m : M A) (k : A -> M B) : M B :=
  fun o => match m o with
           | Ok (a, o') => k a o'
           | Panic => Panic
           end.

Definition lift {A} (r : result A) : M A :=
  fun o => match r with
           | Ok a => Ok (a, o)
           | Panic => Panic
           end.

Notation "'let*' x := m 'in' k" := (bind m (fun x => k))
  (at level 10, x pattern, m at level 200, k at level 200).

(** The outcome of a run, without the unused part of the oracle. *)
Definition run {A} (m : M A) (o : Oracle) : result A :=
  match m o with
  | Ok (a, _) => Ok a
  | Panic => Panic
  end.

(** [s[:i]] and [s[i:]]: Go panics unless [0 <= i <= len(s)]. *)
Definition slice_to (s : string) (i : Z) : result string :=
  if (0 <=? i) && (i <=? len s) then Ok (take (Z.to_nat i) s) else Panic.

Definition slice_from (s : string) (i : Z) : result string :=
  if (0 <=? i) && (i <=? len s) then Ok (drop (Z.to_nat i) s) else Panic.

(** [for k, v := range amap]: the entries of [amap] in the order the oracle
    picks; any permutation of the entries can be picked, and nothing else. *)
Definition order_of (amap : gmap string string) (choice : nat)
  : list (string * string) :=
  default (map_to_list amap) (permutations (map_to_list amap) !! choice).

Definition range_map (amap : gmap string string) : M (list (string * string)) :=
  fun o => match o with
           | choice :: o' => Ok (order_of amap choice, o')
           | [] => Ok (order_of amap 0%nat, [])
           end.

(** A loop over a slice whose body may panic or consult the oracle, and one
    whose body may only panic. *)
Fixpoint for_each {A S} (body : S -> A -> M S) (l : list A) (s : S) : M S :=
  match l with
  | [] => ret s
  | x :: l' => let* s' := body s x in for_each body l' s'
  end.

Fixpoint for_eachR {A S} (body : S -> A -> result S) (l : list A) (s : S)
  : result S :=
  match l with
  | [] => Ok s
  | x :: l' => let? s' := body s x in for_eachR body l' s'
  end.

(** ** Data *)

(** [type Shard struct]. The [Servers] field, of a type declared in another
    file, is not read by the resolver and is left out. *)
Record Shard : Type := {
  ID : string;
  Host : string;
  State : Z;
  Tags : list string
}.

(** The fields of the driver's [connstring.ConnString] that the resolver
    reads. [Original] is the connection string as the user gave it, which the
    driver's [String()] method returns. *)
Record ConnString : Type := {
  Original : string;
  AuthSource : string;
  Database : string;
  Hosts : list string;
  Password : string;
  ReadPreference : string;
  ReadPreferenceTagSets : list (gmap string string);
  RetryReadsSet : bool;
  RetryWritesSet : bool;
  SSLSet : bool;
  SSLCaFile : string;
  SSLCaFileSet : bool;
  SSLClientCertificateKeyFile : string;
  SSLClientCertificateKeyFileSet : bool;
  SSLInsecureSet : bool;
  Username : string;
  WString : string;
  WNumber : Z;
  WNumberSet : bool
}.

(** A Go [error] value; [None] is [nil]. *)
Definition error : Type := string.

(** ** [GetQueryParams] *)

(** The body of the inner loop [for k, v := range amap]. *)
Definition tag_step (acc : string * Z) (kv : string * string) : string * Z :=
  let '(ruri, cnt) := acc in
  let ruri := ruri +:+ (fst kv +:+ ":" +:+ snd kv) in
  let ruri := if 0 <? cnt then ruri +:+ "," else ruri in
  (ruri, cnt + 1).

(** The body of the outer loop [for _, amap := range ReadPreferenceTagSets]. *)
Definition tagset_step (acc : string * Z) (amap : gmap string string)
  : M (string * Z) :=
  let* entries := range_map amap in
  ret (fold_left tag_step entries acc).

Definition GetQueryParams (connString : ConnString) (isConnectDirect : bool)
  : M string :=
  let ruri := EmptyString in
  let ruri := if SSLSet connString then ruri +:+ "&tls=true" else ruri in
  let ruri := if SSLCaFileSet connString
              then ruri +:+ ("&tlsCAFile=" +:+ SSLCaFile connString) else ruri in
  let ruri := if SSLClientCertificateKeyFileSet connString
              then ruri +:+ ("&tlsCertificateKeyFile="
                             +:+ SSLClientCertificateKeyFile connString)
              else ruri in
  let ruri := if SSLInsecureSet connString
              then ruri +:+ "&tlsInsecure=true" else ruri in
  let ruri := if nonempty (ReadPreference connString) && negb isConnectDirect
              then ruri +:+ ("&readPreference=" +:+ ReadPreference connString)
              else ruri in
  let* ruri :=
    (if (0 <? Z.of_nat (length (ReadPreferenceTagSets connString)))
        && negb isConnectDirect
     then
       let ruri := ruri +:+ "&readPreferenceTags=" in
       let* acc := for_each tagset_step (ReadPreferenceTagSets connString)
                     (ruri, 0) in
       ret (fst acc)
     else ret ruri) in
  let ruri := if WNumberSet connString
              then ruri +:+ ("&w=" +:+ pretty (WNumber connString))
              else if nonempty (WString connString)
                   then ruri +:+ ("&w=" +:+ WString connString)
                   else ruri in
  let ruri := if RetryReadsSet connString
              then ruri +:+ "&retryReads=true" else ruri in
  let ruri := if RetryWritesSet connString
              then ruri +:+ "&retryWrites=true" else ruri in
  ret ruri.

(** ** [GetAllShardURIs] *)

(** The body of [for _, shard := range shards]; [uris] is the slice [list]
    built so far. *)
Definition shard_step (connString : ConnString) (isSRV : bool)
    (uris : list string) (shard : Shard) : M (list string) :=
  let idx := Index (Host shard) "/" in
  let* setName := lift (slice_to (Host shard) idx) in
  let* hosts := lift (slice_from (Host shard) (idx + 1)) in
  let ruri := "mongodb://" in
  let ruri := if nonempty (Username connString)
              then ruri +:+ (Username connString +:+ ":"
                             +:+ QueryEscape (Password connString) +:+ "@"
                             +:+ hosts)
              else ruri +:+ hosts in
  let ruri := ruri +:+ ("/" +:+ Database connString +:+ "?replicaSet="
                        +:+ setName) in
  let ruri := if negb isSRV && nonempty (AuthSource connString)
              then ruri +:+ ("&authSource=" +:+ AuthSource connString)
              else if isSRV then ruri +:+ "&authSource=admin&tls=true"
                   else ruri in
  let* params := GetQueryParams connString false in
  let ruri := ruri +:+ params in
  ret (uris ++ [ruri]).

Definition GetAllShardURIs (shards : list Shard) (connString : ConnString)
  : M (list string * option error) :=
  let isSRV := Index (Original connString) "mongodb+srv" =? 0 in
  let* uris := for_each (shard_step connString isSRV) shards [] in
  ret (uris, None).

(** ** [GetAllServerURIs] *)

Definition decorations : list (string * string) :=
  [("-wucdt", ""); ("-pri", ""); ("-sec", "")].

(** The body of [for _, origHost := range connString.Hosts]: the map from
    base names to seed hosts and the list of seed host names. *)
Definition seed_step (acc : gmap string string * list string) (origHost : string)
  : result (gmap string string * list string) :=
  let '(originalHostsMap, originalHostsList) := acc in
  let idx := Index origHost ":" in
  let? origHostname :=
    (if 0 <? idx then slice_to origHost idx else Ok origHost) in
  let originalHostsList := originalHostsList ++ [origHostname] in
  if Contains origHostname "-pri" then
    let idx := Index origHostname "-pri" in
    if 0 <? idx then
      let? baseHost := slice_to origHostname idx in
      let domainIdx := Index baseHost "." in
      let? originalHostsMap :=
        (if 0 <? domainIdx then
           let? baseHostNoDomain := slice_to baseHost domainIdx in
           Ok (<[baseHostNoDomain := origHostname]> originalHostsMap)
         else Ok originalHostsMap) in
      Ok (<[baseHost := origHostname]> originalHostsMap, originalHostsList)
    else Ok (originalHostsMap, originalHostsList)
  else Ok (originalHostsMap, originalHostsList).

(** The shard identifier of a topology host, from the first label of its
    name. *)
Definition member_shardID (firstPart : string) : result string :=
  if Contains firstPart "-shard-" then
    let cleaned := Replace decorations firstPart in
    let idx := Index cleaned "-shard-" in
    if 0 <? idx then
      let? afterShard := slice_from cleaned (idx + 7) in
      if 5 <=? len afterShard then
        let? head := slice_to afterShard 5 in
        if Contains head "-" then slice_to cleaned (idx + 7 + 5) else Ok cleaned
      else Ok cleaned
    else Ok cleaned
  else Ok firstPart.

(** The shard identifier of a seed host name, as the fallback scan derives
    it. When ["-shard-"] starts the cleaned name the identifier stays the base
    name, where [member_shardID] takes the cleaned name. *)
Definition seed_shardID (origHost : string) : result string :=
  let idx := Index origHost "-pri" in
  let? origBase :=
    (if 0 <? idx then slice_to origHost idx else Ok origHost) in
  let dotIdx := Index origBase "." in
  let? origBase :=
    (if 0 <? dotIdx then slice_to origBase dotIdx else Ok origBase) in
  if Contains origBase "-shard-" then
    let cleaned := Replace decorations origBase in
    let idx := Index cleaned "-shard-" in
    if 0 <? idx then
      let? afterShard := slice_from cleaned (idx + 7) in
      if 5 <=? len afterShard then
        let? head := slice_to afterShard 5 in
        if Contains head "-" then slice_to cleaned (idx + 7 + 5) else Ok cleaned
      else Ok cleaned
    else Ok origBase
  else Ok origBase.

(** [for _, origHost := range originalHostsList] with its [break]: the first
    seed whose identifier is [shardID], if there is one. *)
Fixpoint scan_seeds (originalHostsList : list string) (shardID : string)
  : result (option string) :=
  match originalHostsList with
  | [] => Ok None
  | origHost :: rest =>
      let? origShardID := seed_shardID origHost in
      if String.eqb origShardID shardID then Ok (Some origHost)
      else scan_seeds rest shardID
  end.

(** From [host], one entry of a shard's member list, to [finalHost]. *)
Definition resolve_host (originalHostsMap : gmap string string)
    (originalHostsList : list string) (host : string) : result string :=
  let idx := Index host ":" in
  let? (hostname, port) :=
    (if 0 <? idx then
       let? hostname := slice_to host idx in
       let? port := slice_from host idx in
       Ok (hostname, port)
     else Ok (host, EmptyString)) in
  let? (hostname, matched) :=
    (if (0 <? Z.of_nat (size originalHostsMap))
        || (0 <? Z.of_nat (length originalHostsList))
     then
       match Split hostname "." with
       | firstPart :: _ =>
           let? shardID := member_shardID firstPart in
           match originalHostsMap !! shardID with
           | Some origHost => Ok (origHost, true)
           | None =>
               let? found := scan_seeds originalHostsList shardID in
               match found with
               | Some origHost => Ok (origHost, true)
               | None => Ok (hostname, false)
               end
           end
       | [] => Ok (hostname, false)
       end
     else Ok (hostname, false)) in
  let? hostname :=
    (if negb matched && Contains hostname "-shard-"
        && Contains hostname ".gcp.mongodb.net"
     then
       if negb (Contains hostname "-pri") then
         match Split hostname "." with
         | firstPart :: rest =>
             let cleanedFirst := Replace [("-wucdt", "")] firstPart in
             Ok (cleanedFirst +:+ "-pri." +:+ Join rest ".")
         | [] =>
             let dotIdx := Index hostname "." in
             if 0 <? dotIdx then
               let? before := slice_to hostname dotIdx in
               let? after := slice_from hostname dotIdx in
               Ok (before +:+ "-pri" +:+ after)
             else Ok hostname
         end
       else Ok hostname
     else Ok hostname) in
  let finalHost := if nonempty port then hostname +:+ port else hostname in
  Ok finalHost.

(** The URI of one member, from [ruri := "mongodb://"] to the [append]. *)
Definition member_uri (connString : ConnString) (isSRV : bool)
    (setName finalHost : string) : M string :=
  let ruri := "mongodb://" in
  let ruri := if nonempty (Username connString)
              then ruri +:+ (Username connString +:+ ":"
                             +:+ QueryEscape (Password connString) +:+ "@"
                             +:+ finalHost +:+ "/?")
              else ruri +:+ (finalHost +:+ "/?") in
  let ruri := ruri +:+ ("replicaSet=" +:+ setName +:+ "&") in
  let ruri := if isSRV then ruri +:+ "authSource=admin&tls=true"
              else if nonempty (AuthSource connString)
                   then ruri +:+ ("authSource=" +:+ AuthSource connString)
                   else if nonempty (Username connString)
                        then ruri +:+ "authSource=admin"
                        else ruri in
  let* params := GetQueryParams connString true in
  ret (ruri +:+ params).

(** The body of [for _, host := range hosts]. *)
Definition member_step (connString : ConnString) (isSRV : bool)
    (originalHostsMap : gmap string string) (originalHostsList : list string)
    (setName : string) (uris : list string) (host : string) : M (list string) :=
  let* finalHost :=
    lift (resolve_host originalHostsMap originalHostsList host) in
  let* ruri := member_uri connString isSRV setName finalHost in
  ret (uris ++ [ruri]).

(** The body of [for _, shard := range shards]. *)
Definition server_step (connString : ConnString) (isSRV : bool)
    (originalHostsMap : gmap string string) (originalHostsList : list string)
    (uris : list string) (shard : Shard) : M (list string) :=
  let idx := Index (Host shard) "/" in
  let* setName := lift (slice_to (Host shard) idx) in
  let* allHosts := lift (slice_from (Host shard) (idx + 1)) in
  let hosts := Split allHosts "," in
  for_each
    (member_step connString isSRV originalHostsMap originalHostsList setName)
    hosts uris.

Definition GetAllServerURIs (shards : list Shard) (connString : ConnString)
  : M (list string * option error) :=
  let isSRV := HasPrefix (Original connString) "mongodb+srv" in
  let* (originalHostsMap, originalHostsList) :=
    lift (for_eachR seed_step (Hosts connString) (∅, [])) in
  let* uris :=
    for_each (server_step connString isSRV originalHostsMap originalHostsList)
      shards [] in
  ret (uris, None).

(** ** [GetShards] *)

(** [sort.Slice(x, less)]: [x] in an order in which no element is followed
    by one that is [less] ([in_order]). The sort is not stable, so the order
    among elements that [less] does not tell apart is not specified: the
    oracle picks one of the sorted permutations (the one a stable sort gives
    when its number is past the last of them). *)
Definition in_order {A : Type} (less : A -> A -> bool) : relation A :=
  fun a b => less b a = false.

#[local] Instance in_order_dec {A : Type} (less : A -> A -> bool) :
  RelDecision (in_order less).
Proof. intros a b. unfold in_order. apply _. Defined.

Definition sort_Slice {A : Type} (less : A -> A -> bool) (x : list A)
  : M (list A) :=
  let sorted := filter (Sorted (in_order less)) (permutations x) in
  let stable := merge_sort (in_order less) x in
  fun o => match o with
           | choice :: o' => Ok (default stable (sorted !! choice), o')
           | [] => Ok (stable, [])
           end.

(** [GetShards], from the outcome of running [listShards] on the [admin]
    database and decoding the reply: the decoded [Shards], or the error. *)
Definition GetShards (reply : list Shard + error)
  : M (list Shard * option error) :=
  match reply with
  | inr err => ret ([], Some err)
  | inl shards =>
      let* shards :=
        sort_Slice (fun a b => String.ltb (ID a) (ID b)) shards in
      ret (shards, None)
  end.

(** ** [formatNumber] *)

(** The body of [for i, c := range str]. The numeral [str] has one-byte
    characters only, so [i] is the position of [c] and [rest] is [str] from
    [i] on. Go's [%] is [Z.rem]. *)
Fixpoint number_loop (str rest : string) (i : Z) (result : string) : string :=
  match rest with
  | EmptyString => result
  | String c rest' =>
      let result := if (0 <? i) && (Z.rem (len str - i) 3 =? 0)
                    then result +:+ "," else result in
      number_loop str rest' (i + 1) (result +:+ String c EmptyString)
  end.

(** [formatNumber] of the report generator; [fmt.Sprintf("%d", n)] is
    [pretty n]. *)
Definition formatNumber (n : Z) : string :=
  if n =? 0 then "0"
  else
    let str := pretty n in
    if len str <=? 3 then str
    else number_loop str str 0 EmptyString.

(** * Notions used in the statements *)

(** The separator of a shard's [Host] field. *)
Definition has_separator (shard : Shard) : Prop :=
  Contains (Host shard) "/" = true.

#[local] Instance has_separator_dec shard : Decision (has_separator shard).
Proof. unfold has_separator. apply _. Defined.

(** [setName] and the member list, as both builders cut them from [Host]. *)
Definition setName_of (shard : Shard) : string :=
  take (Z.to_nat (Index (Host shard) "/")) (Host shard).

Definition allHosts_of (shard : Shard) : string :=
  drop (Z.to_nat (Index (Host shard) "/" + 1)) (Host shard).

(** The suffix of a direct-mode URI. No map is iterated in direct mode, so it
    is a function of the configuration alone. *)
Definition direct_params (c : ConnString) : string :=
  match run (GetQueryParams c true) [] with
  | Ok params => params
  | Panic => EmptyString
  end.

(** [username:escaped-password@], or nothing without a user name. *)
Definition credentials (c : ConnString) : string :=
  if nonempty (Username c)
  then Username c +:+ ":" +:+ QueryEscape (Password c) +:+ "@"
  else EmptyString.

(** What precedes ["?replicaSet="] in a discovery URI. *)
Definition discovery_head (c : ConnString) (shard : Shard) : string :=
  "mongodb://" +:+ credentials c +:+ allHosts_of shard +:+ "/" +:+ Database c.

(** The [authSource] part of a discovery URI. *)
Definition discovery_auth (c : ConnString) (isSRV : bool) : string :=
  if negb isSRV && nonempty (AuthSource c) then "&authSource=" +:+ AuthSource c
  else if isSRV then "&authSource=admin&tls=true"
       else EmptyString.

Definition discovery_uri (c : ConnString) (isSRV : bool) (shard : Shard)
    (params : string) : string :=
  discovery_head c shard +:+ "?replicaSet=" +:+ setName_of shard
    +:+ discovery_auth c isSRV +:+ params.

(** [params] is a suffix [GetQueryParams] can return in discovery mode. *)
Definition discovery_params (c : ConnString) (params : string) : Prop :=
  exists o, run (GetQueryParams c false) o = Ok params.

(** The name of a seed host or of a member: the text before its first [":"],
    unless that is the first byte. *)
Definition host_name (host : string) : string :=
  if 0 <? Index host ":"
  then take (Z.to_nat (Index host ":")) host
  else host.

(** The two tables [GetAllServerURIs] builds from the seed hosts. *)
Definition seed_tables (hosts : list string) : gmap string string * list string :=
  match for_eachR seed_step hosts (∅, []) with
  | Ok tables => tables
  | Panic => (∅, [])
  end.

(** The host a member is resolved to. *)
Definition resolved (tables : gmap string string * list string) (host : string)
  : string :=
  match resolve_host tables.1 tables.2 host with
  | Ok finalHost => finalHost
  | Panic => host
  end.

(** The [authSource] part of a direct URI. *)
Definition direct_auth (c : ConnString) (isSRV : bool) : string :=
  if isSRV then "authSource=admin&tls=true"
  else if nonempty (AuthSource c) then "authSource=" +:+ AuthSource c
       else if nonempty (Username c) then "authSource=admin"
            else EmptyString.

Definition direct_uri (c : ConnString) (isSRV : bool) (setName finalHost : string)
  : string :=
  "mongodb://" +:+ credentials c +:+ finalHost +:+ "/?replicaSet=" +:+ setName
    +:+ "&" +:+ direct_auth c isSRV +:+ direct_params c.

(** The members of a shard, as the direct-mode loop enumerates them. *)
Definition members_of (shard : Shard) : list string :=
  Split (allHosts_of shard) ",".

(** The URIs of one shard in direct mode. *)
Definition direct_uris (c : ConnString) (shard : Shard) : list string :=
  map (fun host =>
         direct_uri c (HasPrefix (Original c) "mongodb+srv") (setName_of shard)
           (resolved (seed_tables (Hosts c)) host))
      (members_of shard).

(** The number of positions of [s] at which [substr] starts. *)
Fixpoint Occurrences (s substr : string) : nat :=
  ((if HasPrefix s substr then 1 else 0)
   + match s with
     | EmptyString => 0
     | String _ s' => Occurrences s' substr
     end)%nat.

(** [c] is one of the bytes of [s]. *)
Fixpoint mentions (s : string) (c : ascii) : bool :=
  match s with
  | EmptyString => false
  | String a s' => Ascii.eqb a c || mentions s' c
  end.

(** The configuration of the end-to-end example: no user name, database
    [admin], nothing else set. *)
Definition example_config : ConnString := {|
  Original := ""; AuthSource := ""; Database := "admin"; Hosts := [];
  Password := ""; ReadPreference := ""; ReadPreferenceTagSets := [];
  RetryReadsSet := false; RetryWritesSet := false; SSLSet := false;
  SSLCaFile := ""; SSLCaFileSet := false; SSLClientCertificateKeyFile := "";
  SSLClientCertificateKeyFileSet := false; SSLInsecureSet := false;
  Username := ""; WString := ""; WNumber := 0; WNumberSet := false |}.

(** The same options as parsed from a connection string that names one
    router. *)
Definition mongos_config : ConnString := {|
  Original := "mongodb://mongos1.example.net:27017/admin"; AuthSource := "";
  Database := "admin"; Hosts := ["mongos1.example.net:27017"];
  Password := ""; ReadPreference := ""; ReadPreferenceTagSets := [];
  RetryReadsSet := false; RetryWritesSet := false; SSLSet := false;
  SSLCaFile := ""; SSLCaFileSet := false; SSLClientCertificateKeyFile := "";
  SSLClientCertificateKeyFileSet := false; SSLInsecureSet := false;
  Username := ""; WString := ""; WNumber := 0; WNumberSet := false |}.

(** A configuration whose seed host has no marker and shares its first
    label with a member. *)
Definition unmarked_seed_config : ConnString := {|
  Original := "mongodb://h1.example.net:27017/admin"; AuthSource := "";
  Database := "admin"; Hosts := ["h1.example.net:27017"];
  Password := ""; ReadPreference := ""; ReadPreferenceTagSets := [];
  RetryReadsSet := false; RetryWritesSet := false; SSLSet := false;
  SSLCaFile := ""; SSLCaFileSet := false; SSLClientCertificateKeyFile := "";
  SSLClientCertificateKeyFileSet := false; SSLInsecureSet := false;
  Username := ""; WString := ""; WNumber := 0; WNumberSet := false |}.

Definition shard_of (id host : string) : Shard :=
  {| ID := id; Host := host; State := 1; Tags := [] |}.

Definition example_shard : Shard := shard_of "shard01" "shard01/h1:27018,h2:27018".

(** An SRV connection string with an explicit [authSource]. *)
Definition srv_config : ConnString := {|
  Original := "mongodb+srv://u:p@cluster0.example.net/admin?authSource=mydb";
  AuthSource := "mydb"; Database := "admin";
  Hosts := ["cluster0-shard-00-00.example.net:27017"];
  Password := "p"; ReadPreference := ""; ReadPreferenceTagSets := [];
  RetryReadsSet := false; RetryWritesSet := false; SSLSet := false;
  SSLCaFile := ""; SSLCaFileSet := false; SSLClientCertificateKeyFile := "";
  SSLClientCertificateKeyFileSet := false; SSLInsecureSet := false;
  Username := "u"; WString := ""; WNumber := 0; WNumberSet := false |}.

(** A configuration whose one tag set has two keys. *)
Definition tagged_config : ConnString := {|
  Original := "mongodb://h1:27017/?readPreferenceTags=dc:east,rack:1";
  AuthSource := ""; Database := ""; Hosts := ["h1:27017"];
  Password := ""; ReadPreference := "";
  ReadPreferenceTagSets := [ {[ "dc" := "east"; "rack" := "1" ]} ];
  RetryReadsSet := false; RetryWritesSet := false; SSLSet := false;
  SSLCaFile := ""; SSLCaFileSet := false; SSLClientCertificateKeyFile := "";
  SSLClientCertificateKeyFileSet := false; SSLInsecureSet := false;
  Username := ""; WString := ""; WNumber := 0; WNumberSet := false |}.

(** A configuration with read-preference settings and other options. *)
Definition secondary_config : ConnString := {|
  Original := "mongodb://h1:27017/?readPreference=secondary";
  AuthSource := ""; Database := ""; Hosts := ["h1:27017"];
  Password := ""; ReadPreference := "secondary";
  ReadPreferenceTagSets := [ {[ "dc" := "east" ]} ];
  RetryReadsSet := false; RetryWritesSet := true; SSLSet := true;
  SSLCaFile := "/etc/ssl/ca.pem"; SSLCaFileSet := true;
  SSLClientCertificateKeyFile := "";
  SSLClientCertificateKeyFileSet := false; SSLInsecureSet := false;
  Username := ""; WString := ""; WNumber := 1; WNumberSet := true |}.

(** A configuration whose only seed host carries the [-pri] marker. *)
Definition pri_seed_config : ConnString := {|
  Original := "mongodb://prod-x-shard-00-00-pri.example.net/";
  AuthSource := ""; Database := "";
  Hosts := ["prod-x-shard-00-00-pri.example.net"];
  Password := ""; ReadPreference := ""; ReadPreferenceTagSets := [];
  RetryReadsSet := false; RetryWritesSet := false; SSLSet := false;
  SSLCaFile := ""; SSLCaFileSet := false; SSLClientCertificateKeyFile := "";
  SSLClientCertificateKeyFileSet := false; SSLInsecureSet := false;
  Username := ""; WString := ""; WNumber := 0; WNumberSet := false |}.

(** The port of a member: its text from the first [":"] on. *)
Definition host_port (host : string) : string :=
  if 0 <? Index host ":"
  then drop (Z.to_nat (Index host ":")) host
  else EmptyString.

(** The first label of a host name. *)
Definition first_label (hostname : string) : string :=
  match Split hostname "." with
  | firstPart :: _ => firstPart
  | [] => hostname
  end.

(** The shard identifiers the reconciler compares: the one of a member, and
    the one the fallback scan derives from the name of a seed host. *)
Definition member_identifier (host : string) : string :=
  match member_shardID (first_label (host_name host)) with
  | Ok id => id
  | Panic => EmptyString
  end.

Definition seed_identifier (seed : string) : string :=
  match seed_shardID (host_name seed) with
  | Ok id => id
  | Panic => EmptyString
  end.

(** The shape for which the reconciler makes up a [-pri] name: an Atlas name
    on GCP without the marker. *)
Definition awaits_marker (hostname : string) : bool :=
  Contains hostname "-shard-" && Contains hostname ".gcp.mongodb.net"
  && negb (Contains hostname "-pri").

(** [c] with other read-preference settings. *)
Definition with_read_preference (c : ConnString) (preference : string)
    (tagsets : list (gmap string string)) : ConnString := {|
  Original := Original c; AuthSource := AuthSource c; Database := Database c;
  Hosts := Hosts c; Password := Password c;
  ReadPreference := preference; ReadPreferenceTagSets := tagsets;
  RetryReadsSet := RetryReadsSet c; RetryWritesSet := RetryWritesSet c;
  SSLSet := SSLSet c; SSLCaFile := SSLCaFile c; SSLCaFileSet := SSLCaFileSet c;
  SSLClientCertificateKeyFile := SSLClientCertificateKeyFile c;
  SSLClientCertificateKeyFileSet := SSLClientCertificateKeyFileSet c;
  SSLInsecureSet := SSLInsecureSet c; Username := Username c;
  WString := WString c; WNumber := WNumber c; WNumberSet := WNumberSet c |}.

(** The number of bytes of [s] equal to [c]. *)
Fixpoint count_byte (s : string) (c : ascii) : nat :=
  match s with
  | EmptyString => 0%nat
  | String a s' => ((if Ascii.eqb a c then 1 else 0) + count_byte s' c)%nat
  end.

(** [c] without the values whose flag is not set: a CA file or key file
    without its flag, and a named write concern beside a numeric one. *)
Definition effective (c : ConnString) : ConnString := {|
  Original := Original c; AuthSource := AuthSource c; Database := Database c;
  Hosts := Hosts c; Password := Password c;
  ReadPreference := ReadPreference c;
  ReadPreferenceTagSets := ReadPreferenceTagSets c;
  RetryReadsSet := RetryReadsSet c; RetryWritesSet := RetryWritesSet c;
  SSLSet := SSLSet c;
  SSLCaFile := if SSLCaFileSet c then SSLCaFile c else EmptyString;
  SSLCaFileSet := SSLCaFileSet c;
  SSLClientCertificateKeyFile :=
    if SSLClientCertificateKeyFileSet c then SSLClientCertificateKeyFile c
    else EmptyString;
  SSLClientCertificateKeyFileSet := SSLClientCertificateKeyFileSet c;
  SSLInsecureSet := SSLInsecureSet c; Username := Username c;
  WString := if WNumberSet c then EmptyString else WString c;
  WNumber := if WNumberSet c then WNumber c else 0;
  WNumberSet := WNumberSet c |}.

(** The bytes [url.QueryEscape] can return: letters, digits and [-_.~],
    the ["%"] of an escape and the ["+"] of a space. *)
Definition escaped_byte (c : ascii) : bool :=
  let n := N_of_ascii c in
  ((97 <=? n) && (n <=? 122) || (65 <=? n) && (n <=? 90)
   || (48 <=? n) && (n <=? 57)
   || (n =? 45) || (n =? 95) || (n =? 46) || (n =? 126)
   || (n =? 37) || (n =? 43))%N.

(** The value of a hexadecimal digit, and the byte that the first escaped
    unit of a text stands for, with the rest of the text. *)
Definition unhex (c : ascii) : N :=
  let n := N_of_ascii c in
  if (n <? 58)%N then (n - 48)%N else (n - 55)%N.

Definition unescape_head (s : string) : option (ascii * string) :=
  match s with
  | EmptyString => None
  | String "+" rest => Some (" "%char, rest)
  | String "%" (String hi (String lo rest)) =>
      Some (ascii_of_N (16 * unhex hi + unhex lo), rest)
  | String c rest => Some (c, rest)
  end.

(** The text of the tags visited in the order [entries]: the first one as
    [key:value], each later one as [key:value,]. *)
Definition tags_written (entries : list (string * string)) : string :=
  match entries with
  | [] => EmptyString
  | kv :: rest =>
      (kv.1 +:+ ":" +:+ kv.2)
      +:+ String.concat EmptyString
            (map (fun kv => kv.1 +:+ ":" +:+ kv.2 +:+ ",") rest)
  end.

(** What [number_loop] appends for the rest of a numeral, once past the
    first byte: a comma before every byte from which a multiple of three
    bytes is left. *)
Fixpoint grouped (rest : string) : string :=
  match rest with
  | EmptyString => EmptyString
  | String c rest' =>
      if Z.rem (len rest) 3 =? 0 then String "," (String c (grouped rest'))
      else String c (grouped rest')
  end.

(** A configuration whose seed host has the name of the members it leads
    to. *)
Definition localhost_config : ConnString := {|
  Original := "mongodb://localhost:27017/admin"; AuthSource := "";
  Database := "admin"; Hosts := ["localhost:27017"];
  Password := ""; ReadPreference := ""; ReadPreferenceTagSets := [];
  RetryReadsSet := false; RetryWritesSet := false; SSLSet := false;
  SSLCaFile := ""; SSLCaFileSet := false; SSLClientCertificateKeyFile := "";
  SSLClientCertificateKeyFileSet := false; SSLInsecureSet := false;
  Username := ""; WString := ""; WNumber := 0; WNumberSet := false |}.

(** The first seed host, in the order of the connection string, whose
    identifier is the one of the member: the seed host at which the fallback
    scan stops. *)
Definition matching_seed (seeds : list string) (host : string) : option string :=
  List.find (fun seed => String.eqb (seed_identifier seed) (member_identifier host))
    seeds.

(** The member comes out of the reconciliation as it was reported, when no
    seed host holds the marker: the seed host at which the scan stops has the
    name of the member or, when the scan finds none, the name of the member
    does not await the marker. *)
Definition kept_as_reported (seeds : list string) (host : string) : bool :=
  match matching_seed seeds host with
  | Some seed => String.eqb (host_name seed) (host_name host)
  | None => negb (awaits_marker (host_name host))
  end.

(** A parameter that is written when its flag is set. *)
Definition parameter_if (flag : bool) (parameter : string) : string :=
  if flag then parameter else EmptyString.

(** The parameters [GetQueryParams] writes before the tags: those of TLS,
    then the read preference. *)
Definition before_tags (c : ConnString) (direct : bool) : string :=
  parameter_if (SSLSet c) "&tls=true"
  +:+ parameter_if (SSLCaFileSet c) ("&tlsCAFile=" +:+ SSLCaFile c)
  +:+ parameter_if (SSLClientCertificateKeyFileSet c)
        ("&tlsCertificateKeyFile=" +:+ SSLClientCertificateKeyFile c)
  +:+ parameter_if (SSLInsecureSet c) "&tlsInsecure=true"
  +:+ parameter_if (nonempty (ReadPreference c) && negb direct)
        ("&readPreference=" +:+ ReadPreference c).

(** The write concern: the numeric one, else the named one if there is
    one. *)
Definition write_concern (c : ConnString) : string :=
  if WNumberSet c then "&w=" +:+ pretty (WNumber c)
  else parameter_if (nonempty (WString c)) ("&w=" +:+ WString c).

(** The parameters [GetQueryParams] writes after the tags: the write
    concern, then the two retry flags. *)
Definition after_tags (c : ConnString) : string :=
  write_concern c
  +:+ parameter_if (RetryReadsSet c) "&retryReads=true"
  +:+ parameter_if (RetryWritesSet c) "&retryWrites=true".

(** The whole suffix, parameter after parameter, when the entries of the tag
    sets are visited in the orders [orders], one order per tag set. *)
Definition query_suffix (c : ConnString) (direct : bool)
    (orders : list (list (string * string))) : string :=
  before_tags c direct
  +:+ parameter_if
        ((0 <? Z.of_nat (length (ReadPreferenceTagSets c))) && negb direct)
        ("&readPreferenceTags=" +:+ tags_written (concat orders))
  +:+ after_tags c.

(** [order] is one of the orders in which a [range] can visit [amap]. *)
Definition visits (amap : gmap string string) (order : list (string * string))
  : Prop :=
  map_to_list amap ≡ₚ order.

(** One of the values that [GetQueryParams] writes in direct mode holds
    [text]: the CA file or the certificate key file, if its flag is set, or
    the named write concern, if no numeric one is set. *)
Definition written_value_holds (c : ConnString) (text : string) : bool :=
  SSLCaFileSet c && Contains (SSLCaFile c) text
  || SSLClientCertificateKeyFileSet c
     && Contains (SSLClientCertificateKeyFile c) text
  || negb (WNumberSet c) && Contains (WString c) text.

(** A configuration whose CA file path holds the text of a parameter. *)
Definition ca_file_config : ConnString := {|
  Original := "mongodb://h1:27017/"; AuthSource := ""; Database := "";
  Hosts := ["h1:27017"]; Password := ""; ReadPreference := "";
  ReadPreferenceTagSets := [];
  RetryReadsSet := false; RetryWritesSet := false; SSLSet := true;
  SSLCaFile := "/ca.pem&readPreference=secondary"; SSLCaFileSet := true;
  SSLClientCertificateKeyFile := "";
  SSLClientCertificateKeyFileSet := false; SSLInsecureSet := false;
  Username := ""; WString := ""; WNumber := 0; WNumberSet := false |}.

(** [c] with another password. *)
Definition with_password (c : ConnString) (password : string) : ConnString := {|
  Original := Original c; AuthSource := AuthSource c; Database := Database c;
  Hosts := Hosts c; Password := password;
  ReadPreference := ReadPreference c;
  ReadPreferenceTagSets := ReadPreferenceTagSets c;
  RetryReadsSet := RetryReadsSet c; RetryWritesSet := RetryWritesSet c;
  SSLSet := SSLSet c; SSLCaFile := SSLCaFile c; SSLCaFileSet := SSLCaFileSet c;
  SSLClientCertificateKeyFile := SSLClientCertificateKeyFile c;
  SSLClientCertificateKeyFileSet := SSLClientCertificateKeyFileSet c;
  SSLInsecureSet := SSLInsecureSet c; Username := Username c;
  WString := WString c; WNumber := WNumber c; WNumberSet := WNumberSet c |}.

(** * Facts about the string primitives *)

Module StringFacts.

Lemma app_assoc (a b c : string) : (a +:+ b) +:+ c = a +:+ (b +:+ c).
Proof. induction a as [|x a IH]; simpl; [reflexivity | now rewrite IH]. Qed.

Lemma app_nil_r (a : string) : a +:+ "" = a.
Proof. induction a as [|x a IH]; simpl; [reflexivity | now rewrite IH]. Qed.

Lemma length_app (a b : string) :
  String.length (a +:+ b) = (String.length a + String.length b)%nat.
Proof. induction a as [|x a IH]; simpl; [reflexivity | now rewrite IH]. Qed.

Lemma take_drop (n : nat) (s : string) : take n s +:+ drop n s = s.
Proof.
  revert s; induction n as [|n IH]; intros [|a s]; simpl; try reflexivity.
  now rewrite IH.
Qed.

Lemma length_drop (n : nat) (s : string) :
  String.length (drop n s) = (String.length s - n)%nat.
Proof.
  revert s; induction n as [|n IH]; intros [|a s]; simpl; try reflexivity.
  apply IH.
Qed.

Lemma take_app_length (a b : string) : take (String.length a) (a +:+ b) = a.
Proof. induction a as [|x a IH]; simpl; [now destruct b | now rewrite IH]. Qed.

(** ** Prefixes *)

Lemma HasPrefix_app (p s : string) : HasPrefix (p +:+ s) p = true.
Proof.
  induction p as [|x p IH]; simpl; [reflexivity|].
  now rewrite Ascii.eqb_refl.
Qed.

Lemma HasPrefix_inv (s p : string) :
  HasPrefix s p = true -> s = p +:+ drop (String.length p) s.
Proof.
  revert s; induction p as [|x p IH]; intros s H; simpl in *; [reflexivity|].
  destruct s as [|a s]; [discriminate|].
  destruct (Ascii.eqb_spec a x) as [->|]; [|discriminate].
  simpl. f_equal. now apply IH.
Qed.

Lemma HasPrefix_length (s p : string) :
  HasPrefix s p = true -> (String.length p <= String.length s)%nat.
Proof.
  intros H. rewrite (HasPrefix_inv _ _ H), length_app. lia.
Qed.

Lemma HasPrefix_app_l (s k x : string) :
  HasPrefix s (k +:+ x) = true -> HasPrefix s k = true.
Proof.
  revert s; induction k as [|c k IH]; intros s H; simpl in *; [reflexivity|].
  destruct s as [|a s]; [discriminate|].
  destruct (Ascii.eqb a c); [now apply IH | discriminate].
Qed.

(** ** [Index] and [Contains] *)

Lemma index_of_bound (s sub : string) (n : nat) :
  index_of s sub = Some n ->
  (n + String.length sub <= String.length s)%nat.
Proof.
  revert n; induction s as [|a s IH]; intros n; simpl.
  - destruct (HasPrefix "" sub) eqn:E; [|discriminate].
    intros [= <-]. apply HasPrefix_length in E. simpl in *; lia.
  - destruct (HasPrefix (String a s) sub) eqn:E.
    + intros [= <-]. apply HasPrefix_length in E. simpl in *; lia.
    + destruct (index_of s sub) as [m|]; simpl; [|discriminate].
      intros [= <-]. specialize (IH m eq_refl). lia.
Qed.

Lemma Index_range (s sub : string) :
  Index s sub = -1 \/ (0 <= Index s sub /\ Index s sub + len sub <= len s).
Proof.
  unfold Index, len. destruct (index_of s sub) as [n|] eqn:E; [right|now left].
  apply index_of_bound in E. lia.
Qed.

Lemma Contains_cons (a : ascii) (s sub : string) :
  Contains (String a s) sub = HasPrefix (String a s) sub || Contains s sub.
Proof.
  unfold Contains, Index. cbn [index_of].
  destruct (HasPrefix (String a s) sub); [reflexivity|].
  destruct (index_of s sub) as [n|]; simpl; [|reflexivity].
  symmetry. transitivity true; [apply Z.leb_le; lia|].
  symmetry. apply Z.leb_le. lia.
Qed.

Lemma Contains_nil (sub : string) : Contains "" sub = HasPrefix "" sub.
Proof. unfold Contains, Index; simpl. now destruct (HasPrefix "" sub). Qed.

Lemma Contains_HasPrefix (s sub : string) :
  HasPrefix s sub = true -> Contains s sub = true.
Proof.
  intros H. destruct s; [now rewrite Contains_nil|].
  rewrite Contains_cons, H. reflexivity.
Qed.

(** A string contains whatever one of its pieces is. *)
Lemma Contains_app_mid (a sub b : string) : Contains (a +:+ sub +:+ b) sub = true.
Proof.
  induction a as [|x a IH].
  - simpl. apply Contains_HasPrefix, HasPrefix_app.
  - cbn [String.append]. rewrite Contains_cons.
    change (a +:+ sub +:+ b) with (a +:+ sub +:+ b) in IH.
    rewrite IH. apply orb_true_r.
Qed.

Lemma Index_zero (s p : string) : (Index s p =? 0) = HasPrefix s p.
Proof.
  unfold Index. destruct s as [|a s]; simpl.
  - now destruct (HasPrefix "" p).
  - destruct (HasPrefix (String a s) p); [reflexivity|].
    destruct (index_of s p) as [n|]; reflexivity.
Qed.

End StringFacts.

(** ** The primitives on sample inputs *)

Example Index_absent : Index "h1:27018,h2:27018" "/" = -1.
Proof. reflexivity. Qed.

Example Index_first : Index "rs0/h1:27018/x" "/" = 3.
Proof. reflexivity. Qed.

Example Split_members :
  Split "h1:27018,h2:27018" "," = ["h1:27018"; "h2:27018"].
Proof. reflexivity. Qed.

Example Split_nothing : Split "" "," = [""].
Proof. reflexivity. Qed.

Example Replace_decorations :
  Replace decorations "prod-x-shard-00-00-pri-wucdt" = "prod-x-shard-00-00".
Proof. reflexivity. Qed.

Example QueryEscape_password : QueryEscape "p@ss w/rd~1" = "p%40ss+w%2Frd~1".
Proof. reflexivity. Qed.

Example slice_out_of_range : slice_to "h1:27018" (-1) = Panic.
Proof. reflexivity. Qed.

(** * Facts about the resolver *)

Import StringFacts.

(** Concatenations in right-nested form, literals unfolded. *)
Ltac norm_app :=
  repeat (progress (rewrite ?app_assoc, ?app_nil_r; simpl)).

(** ** Slices that stay in range *)

Lemma slice_to_ok (s : string) (i : Z) :
  0 <= i <= len s -> slice_to s i = Ok (take (Z.to_nat i) s).
Proof.
  intros [H1 H2]. unfold slice_to.
  apply Z.leb_le in H1, H2. now rewrite H1, H2.
Qed.

Lemma slice_from_ok (s : string) (i : Z) :
  0 <= i <= len s -> slice_from s i = Ok (drop (Z.to_nat i) s).
Proof.
  intros [H1 H2]. unfold slice_from.
  apply Z.leb_le in H1, H2. now rewrite H1, H2.
Qed.

Lemma slice_to_negative (s : string) (i : Z) : i < 0 -> slice_to s i = Panic.
Proof.
  intros H. unfold slice_to. apply Z.leb_gt in H. now rewrite H.
Qed.

Lemma len_nonneg (s : string) : 0 <= len s.
Proof. unfold len. lia. Qed.

Lemma len_drop (s : string) (i : Z) :
  0 <= i <= len s -> len (drop (Z.to_nat i) s) = len s - i.
Proof. unfold len. intros H. rewrite length_drop. lia. Qed.

Lemma cut_setName (shard : Shard) :
  has_separator shard ->
  slice_to (Host shard) (Index (Host shard) "/") = Ok (setName_of shard).
Proof.
  unfold has_separator, Contains. intros H%Z.leb_le.
  apply slice_to_ok. destruct (Index_range (Host shard) "/") as [E|[? E]];
    [lia|]. change (len "/") with 1 in E. lia.
Qed.

Lemma cut_allHosts (shard : Shard) :
  has_separator shard ->
  slice_from (Host shard) (Index (Host shard) "/" + 1) = Ok (allHosts_of shard).
Proof.
  unfold has_separator, Contains. intros H%Z.leb_le.
  apply slice_from_ok. destruct (Index_range (Host shard) "/") as [E|[? E]];
    [lia|]. change (len "/") with 1 in E. lia.
Qed.

Lemma cut_panics (shard : Shard) :
  ~ has_separator shard ->
  slice_to (Host shard) (Index (Host shard) "/") = Panic.
Proof.
  unfold has_separator, Contains. intros H.
  apply slice_to_negative. destruct (Z.leb_spec 0 (Index (Host shard) "/")); 
    [contradiction|assumption].
Qed.

(** ** [GetQueryParams] always returns *)

Lemma tagsets_loop_ok (sets : list (gmap string string)) (acc : string * Z)
    (o : Oracle) :
  exists acc' o', for_each tagset_step sets acc o = Ok (acc', o').
Proof.
  revert acc o; induction sets as [|amap sets IH]; intros acc o; simpl.
  - unfold ret. eauto.
  - unfold bind at 1. unfold tagset_step at 1, range_map, bind, ret.
    destruct o as [|choice o]; apply IH.
Qed.

Lemma GetQueryParams_ok (c : ConnString) (direct : bool) (o : Oracle) :
  exists params o', GetQueryParams c direct o = Ok (params, o').
Proof.
  unfold GetQueryParams.
  destruct ((0 <? Z.of_nat (length (ReadPreferenceTagSets c))) && negb direct).
  - unfold bind at 1. unfold bind at 1.
    match goal with
    | |- context [for_each tagset_step ?l ?a o] =>
        destruct (tagsets_loop_ok l a o) as (acc' & o' & ->)
    end.
    unfold ret. eauto.
  - unfold bind, ret. eauto.
Qed.

Lemma GetQueryParams_direct (c : ConnString) (o : Oracle) :
  GetQueryParams c true o = Ok (direct_params c, o).
Proof.
  unfold direct_params, run, GetQueryParams.
  rewrite !andb_false_r. reflexivity.
Qed.

(** ** The discovery loop in closed form *)

Lemma shard_step_ok (c : ConnString) (isSRV : bool) (uris : list string)
    (shard : Shard) (o : Oracle) :
  has_separator shard ->
  exists params o',
    discovery_params c params /\
    shard_step c isSRV uris shard o
    = Ok (uris ++ [discovery_uri c isSRV shard params], o').
Proof.
  intros Hsep. unfold shard_step.
  unfold bind at 1. unfold lift at 1. rewrite (cut_setName _ Hsep).
  unfold bind at 1. unfold lift at 1. rewrite (cut_allHosts _ Hsep).
  unfold bind at 1.
  destruct (GetQueryParams_ok c false o) as (params & o' & E). rewrite E.
  exists params, o'. split.
  - exists o. unfold run. now rewrite E.
  - unfold ret. do 3 f_equal.
    unfold discovery_uri, discovery_head, discovery_auth, credentials.
    destruct (nonempty (Username c)), (negb isSRV && nonempty (AuthSource c)),
      isSRV; norm_app; reflexivity.
Qed.

Lemma shard_step_panics (c : ConnString) (isSRV : bool) (uris : list string)
    (shard : Shard) (o : Oracle) :
  ~ has_separator shard -> shard_step c isSRV uris shard o = Panic.
Proof.
  intros Hsep. unfold shard_step.
  unfold bind at 1. unfold lift at 1. now rewrite (cut_panics _ Hsep).
Qed.

Lemma shard_loop_ok (c : ConnString) (isSRV : bool) (shards : list Shard) :
  Forall has_separator shards ->
  forall (uris : list string) (o : Oracle),
  exists new o',
    for_each (shard_step c isSRV) shards uris o = Ok (uris ++ new, o') /\
    Forall2 (fun shard uri =>
               exists params, discovery_params c params /\
                              uri = discovery_uri c isSRV shard params)
            shards new.
Proof.
  induction 1 as [|shard shards Hsep _ IH]; intros uris o; simpl.
  - exists [], o. unfold ret. rewrite List.app_nil_r. split; constructor.
  - unfold bind at 1.
    destruct (shard_step_ok c isSRV uris shard o Hsep) as (params & o1 & Hp & ->).
    destruct (IH (uris ++ [discovery_uri c isSRV shard params]) o1)
      as (new & o' & -> & Hall).
    exists (discovery_uri c isSRV shard params :: new), o'. split.
    + now rewrite <- List.app_assoc.
    + constructor; eauto.
Qed.

Lemma shard_loop_panics (c : ConnString) (isSRV : bool) (shards : list Shard) :
  Exists (fun shard => ~ has_separator shard) shards ->
  forall (uris : list string) (o : Oracle),
    for_each (shard_step c isSRV) shards uris o = Panic.
Proof.
  induction shards as [|shard shards IH]; intros Hex uris o.
  - inversion Hex.
  - simpl. unfold bind at 1.
    destruct (decide (has_separator shard)) as [Hsep|Hsep].
    + destruct (shard_step_ok c isSRV uris shard o Hsep) as (? & o1 & _ & ->).
      apply IH. inversion Hex; subst; [contradiction|assumption].
    + now rewrite shard_step_panics.
Qed.

(** [GetAllShardURIs] returns exactly when every [Host] has its separator:
    then one URI per shard, in the order of the shards, and a [nil] error. *)
Lemma GetAllShardURIs_ok (shards : list Shard) (c : ConnString) (o : Oracle) :
  Forall has_separator shards ->
  exists uris,
    run (GetAllShardURIs shards c) o = Ok (uris, None) /\
    Forall2 (fun shard uri =>
               exists params, discovery_params c params /\
                 uri = discovery_uri c (HasPrefix (Original c) "mongodb+srv")
                         shard params)
            shards uris.
Proof.
  intros Hall. unfold GetAllShardURIs, run. rewrite Index_zero.
  unfold bind at 1.
  destruct (shard_loop_ok c (HasPrefix (Original c) "mongodb+srv") shards
              Hall [] o) as (new & o' & -> & H2).
  exists new. split; [reflexivity | exact H2].
Qed.

Lemma GetAllShardURIs_panics (shards : list Shard) (c : ConnString) (o : Oracle) :
  Exists (fun shard => ~ has_separator shard) shards ->
  run (GetAllShardURIs shards c) o = Panic.
Proof.
  intros Hex. unfold GetAllShardURIs, run. unfold bind at 1.
  now rewrite shard_loop_panics.
Qed.

(** ** The reconciler always returns *)

Lemma slice_to_Index (s sub : string) :
  0 <= Index s sub ->
  slice_to s (Index s sub) = Ok (take (Z.to_nat (Index s sub)) s).
Proof.
  intros H. apply slice_to_ok.
  destruct (Index_range s sub) as [E|[_ E]]; [lia|].
  pose proof (len_nonneg sub). lia.
Qed.

Lemma slice_from_Index0 (s sub : string) :
  0 <= Index s sub ->
  slice_from s (Index s sub) = Ok (drop (Z.to_nat (Index s sub)) s).
Proof.
  intros H. apply slice_from_ok.
  destruct (Index_range s sub) as [E|[_ E]]; [lia|].
  pose proof (len_nonneg sub). lia.
Qed.

Lemma seed_step_ok (m : gmap string string) (l : list string) (origHost : string) :
  exists m', seed_step (m, l) origHost = Ok (m', l ++ [host_name origHost]) /\
             (Contains (host_name origHost) "-pri" = false -> m' = m).
Proof.
  unfold seed_step.
  assert ((if 0 <? Index origHost ":"
           then slice_to origHost (Index origHost ":") else Ok origHost)
          = Ok (host_name origHost)) as ->.
  { unfold host_name.
    destruct (Z.ltb_spec 0 (Index origHost ":")); [|reflexivity].
    apply slice_to_Index. lia. }
  unfold bindR at 1. generalize (host_name origHost) as name. intros name.
  destruct (Contains name "-pri") eqn:Hpri; [|eexists; split; eauto].
  destruct (Z.ltb_spec 0 (Index name "-pri")) as [Hidx|Hidx];
    [|eexists; split; [reflexivity|discriminate]].
  rewrite slice_to_Index by lia. unfold bindR at 1.
  destruct (Z.ltb_spec 0 (Index (take (Z.to_nat (Index name "-pri")) name) "."))
    as [Hdot|Hdot].
  - rewrite slice_to_Index by lia. unfold bindR.
    eexists; split; [reflexivity|discriminate].
  - unfold bindR. eexists; split; [reflexivity|discriminate].
Qed.

Lemma seed_loop_ok (hosts : list string) :
  forall (m : gmap string string) (l : list string),
  exists m', for_eachR seed_step hosts (m, l) = Ok (m', l ++ map host_name hosts) /\
             (Forall (fun h => Contains (host_name h) "-pri" = false) hosts ->
              m' = m).
Proof.
  induction hosts as [|h hosts IH]; intros m l; cbn [for_eachR map].
  - exists m. rewrite List.app_nil_r. split; [reflexivity|trivial].
  - destruct (seed_step_ok m l h) as (m1 & -> & Hm1). unfold bindR at 1.
    destruct (IH m1 (l ++ [host_name h])) as (m' & -> & Hm').
    exists m'. split; [now rewrite <- List.app_assoc|].
    intros Hall. inversion Hall; subst. rewrite Hm' by assumption. auto.
Qed.

Lemma seed_tables_ok (hosts : list string) :
  for_eachR seed_step hosts (∅, []) = Ok (seed_tables hosts).
Proof.
  unfold seed_tables. destruct (seed_loop_ok hosts ∅ []) as (m' & -> & _).
  reflexivity.
Qed.

Lemma seed_tables_list (hosts : list string) :
  (seed_tables hosts).2 = map host_name hosts.
Proof.
  unfold seed_tables. destruct (seed_loop_ok hosts ∅ []) as (m' & -> & _).
  reflexivity.
Qed.

Lemma seed_tables_unmarked (hosts : list string) :
  Forall (fun h => Contains (host_name h) "-pri" = false) hosts ->
  (seed_tables hosts).1 = ∅.
Proof.
  unfold seed_tables. destruct (seed_loop_ok hosts ∅ []) as (m' & -> & Hm).
  exact Hm.
Qed.

(** The part the two identifier derivations share: [cleaned] holds
    ["-shard-"] at [idx > 0]. *)
Lemma shard_suffix_ok (cleaned : string) :
  0 < Index cleaned "-shard-" ->
  exists id,
    (let? afterShard := slice_from cleaned (Index cleaned "-shard-" + 7) in
     if 5 <=? len afterShard then
       let? head := slice_to afterShard 5 in
       if Contains head "-"
       then slice_to cleaned (Index cleaned "-shard-" + 7 + 5)
       else Ok cleaned
     else Ok cleaned) = Ok id.
Proof.
  intros Hidx.
  assert (Index cleaned "-shard-" + 7 <= len cleaned) as Hlen.
  { destruct (Index_range cleaned "-shard-") as [E|[_ E]]; [lia|].
    change (len "-shard-") with 7 in E. lia. }
  rewrite slice_from_ok by lia. unfold bindR at 1.
  rewrite len_drop by lia.
  destruct (Z.leb_spec 5 (len cleaned - (Index cleaned "-shard-" + 7)));
    [|eauto].
  rewrite slice_to_ok by (rewrite len_drop; lia). unfold bindR.
  destruct (Contains _ "-"); [|eauto].
  rewrite slice_to_ok by lia. eauto.
Qed.

Lemma member_shardID_ok (firstPart : string) :
  exists id, member_shardID firstPart = Ok id.
Proof.
  unfold member_shardID.
  destruct (Contains firstPart "-shard-"); [|eauto].
  destruct (Z.ltb_spec 0 (Index (Replace decorations firstPart) "-shard-"));
    [|eauto].
  now apply shard_suffix_ok.
Qed.

Lemma seed_shardID_ok (origHost : string) :
  exists id, seed_shardID origHost = Ok id.
Proof.
  unfold seed_shardID.
  set (base1 := if 0 <? Index origHost "-pri"
                then slice_to origHost (Index origHost "-pri") else Ok origHost).
  assert (exists b, base1 = Ok b) as [b ->].
  { subst base1. destruct (Z.ltb_spec 0 (Index origHost "-pri")); [|eauto].
    rewrite slice_to_Index by lia. eauto. }
  unfold bindR at 1.
  set (base2 := if 0 <? Index b "." then slice_to b (Index b ".") else Ok b).
  assert (exists b', base2 = Ok b') as [b' ->].
  { subst base2. destruct (Z.ltb_spec 0 (Index b ".")); [|eauto].
    rewrite slice_to_Index by lia. eauto. }
  unfold bindR at 1.
  destruct (Contains b' "-shard-"); [|eauto].
  destruct (Z.ltb_spec 0 (Index (Replace decorations b') "-shard-")); [|eauto].
  now apply shard_suffix_ok.
Qed.

Lemma scan_seeds_ok (l : list string) (shardID : string) :
  exists found, scan_seeds l shardID = Ok found.
Proof.
  induction l as [|origHost l IH]; cbn [scan_seeds]; [eauto|].
  destruct (seed_shardID_ok origHost) as [id ->]. unfold bindR at 1.
  destruct (String.eqb id shardID); eauto.
Qed.

Lemma resolve_host_ok (m : gmap string string) (l : list string) (host : string) :
  exists finalHost, resolve_host m l host = Ok finalHost.
Proof.
  unfold resolve_host.
  set (split1 := if 0 <? Index host ":" then _ else _).
  assert (exists hostname port, split1 = Ok (hostname, port))
    as (hostname & port & ->).
  { subst split1. destruct (Z.ltb_spec 0 (Index host ":")); [|eauto].
    rewrite slice_to_Index by lia. unfold bindR at 1.
    rewrite slice_from_Index0 by lia.
    unfold bindR. eauto. }
  unfold bindR at 1.
  set (matching := if _ || _ then _ else _).
  assert (exists hostname' matched, matching = Ok (hostname', matched))
    as (hostname' & matched & ->).
  { subst matching. destruct (_ || _); [|eauto].
    destruct (Split hostname ".") as [|firstPart rest]; [eauto|].
    destruct (member_shardID_ok firstPart) as [id ->]. unfold bindR at 1.
    destruct (m !! id); [eauto|].
    destruct (scan_seeds_ok l id) as [found ->]. unfold bindR.
    destruct found; eauto. }
  unfold bindR at 1.
  set (synth := if _ && _ && _ then _ else _).
  assert (exists h, synth = Ok h) as [h ->].
  { subst synth. destruct (_ && _ && _); [|eauto].
    destruct (negb _); [|eauto].
    destruct (Split hostname' "."); [|eauto].
    destruct (Z.ltb_spec 0 (Index hostname' ".")); [|eauto].
    rewrite slice_to_Index by lia. unfold bindR at 1.
    rewrite slice_from_Index0 by lia.
    unfold bindR. eauto. }
  unfold bindR. eauto.
Qed.

(** ** The direct-mode loops in closed form *)

Lemma resolve_host_resolved (m : gmap string string) (l : list string)
    (host : string) :
  resolve_host m l host = Ok (resolved (m, l) host).
Proof.
  unfold resolved. simpl. now destruct (resolve_host_ok m l host) as [h ->].
Qed.

Lemma member_uri_eq (c : ConnString) (isSRV : bool) (setName finalHost : string)
    (o : Oracle) :
  member_uri c isSRV setName finalHost o
  = Ok (direct_uri c isSRV setName finalHost, o).
Proof.
  unfold member_uri, bind. rewrite GetQueryParams_direct. unfold ret.
  do 2 f_equal. unfold direct_uri, direct_auth, credentials.
  destruct (nonempty (Username c)), isSRV, (nonempty (AuthSource c)); norm_app; reflexivity.
Qed.

Lemma member_loop_eq (c : ConnString) (isSRV : bool) (m : gmap string string)
    (l : list string) (setName : string) (hosts : list string) :
  forall (uris : list string) (o : Oracle),
    for_each (member_step c isSRV m l setName) hosts uris o
    = Ok (uris ++ map (fun host => direct_uri c isSRV setName
                                     (resolved (m, l) host)) hosts, o).
Proof.
  induction hosts as [|host hosts IH]; intros uris o; cbn [for_each map].
  - unfold ret. now rewrite List.app_nil_r.
  - unfold bind at 1. unfold member_step.
    unfold bind at 1. unfold lift. rewrite resolve_host_resolved.
    unfold bind at 1. rewrite member_uri_eq. unfold ret.
    rewrite IH. now rewrite <- List.app_assoc.
Qed.

Lemma server_step_ok (c : ConnString) (uris : list string) (shard : Shard)
    (o : Oracle) :
  has_separator shard ->
  server_step c (HasPrefix (Original c) "mongodb+srv")
    (seed_tables (Hosts c)).1 (seed_tables (Hosts c)).2 uris shard o
  = Ok (uris ++ direct_uris c shard, o).
Proof.
  intros Hsep. unfold server_step.
  unfold bind at 1. unfold lift at 1. rewrite (cut_setName _ Hsep).
  unfold bind at 1. unfold lift at 1. rewrite (cut_allHosts _ Hsep).
  rewrite member_loop_eq. unfold direct_uris, members_of.
  now destruct (seed_tables (Hosts c)).
Qed.

Lemma server_step_panics (c : ConnString) (isSRV : bool)
    (m : gmap string string) (l : list string) (uris : list string)
    (shard : Shard) (o : Oracle) :
  ~ has_separator shard -> server_step c isSRV m l uris shard o = Panic.
Proof.
  intros Hsep. unfold server_step.
  unfold bind at 1. unfold lift at 1. now rewrite (cut_panics _ Hsep).
Qed.

Lemma server_loop_ok (c : ConnString) (shards : list Shard) :
  Forall has_separator shards ->
  forall (uris : list string) (o : Oracle),
    for_each (server_step c (HasPrefix (Original c) "mongodb+srv")
                (seed_tables (Hosts c)).1 (seed_tables (Hosts c)).2)
      shards uris o
    = Ok (uris ++ concat (map (direct_uris c) shards), o).
Proof.
  induction 1 as [|shard shards Hsep _ IH]; intros uris o;
    cbn [for_each map concat].
  - unfold ret. now rewrite List.app_nil_r.
  - unfold bind at 1. rewrite server_step_ok by assumption.
    rewrite IH. now rewrite <- List.app_assoc.
Qed.

Lemma server_loop_panics (c : ConnString) (shards : list Shard) :
  Exists (fun shard => ~ has_separator shard) shards ->
  forall (uris : list string) (o : Oracle),
    for_each (server_step c (HasPrefix (Original c) "mongodb+srv")
                (seed_tables (Hosts c)).1 (seed_tables (Hosts c)).2)
      shards uris o
    = Panic.
Proof.
  induction shards as [|shard shards IH]; intros Hex uris o.
  - inversion Hex.
  - cbn [for_each]. unfold bind at 1.
    destruct (decide (has_separator shard)) as [Hsep|Hsep].
    + rewrite server_step_ok by assumption.
      apply IH. inversion Hex; subst; [contradiction|assumption].
    + now rewrite server_step_panics.
Qed.

Lemma GetAllServerURIs_unfold (shards : list Shard) (c : ConnString) (o : Oracle) :
  GetAllServerURIs shards c o
  = (let* uris := for_each
                    (server_step c (HasPrefix (Original c) "mongodb+srv")
                       (seed_tables (Hosts c)).1 (seed_tables (Hosts c)).2)
                    shards [] in
     ret (uris, None)) o.
Proof.
  unfold GetAllServerURIs. unfold bind at 1. unfold lift.
  rewrite seed_tables_ok. now destruct (seed_tables (Hosts c)).
Qed.

(** [GetAllServerURIs] returns exactly when every [Host] has its separator:
    then the URIs of the members, shard after shard, and a [nil] error. *)
Lemma GetAllServerURIs_ok (shards : list Shard) (c : ConnString) (o : Oracle) :
  Forall has_separator shards ->
  run (GetAllServerURIs shards c) o
  = Ok (concat (map (direct_uris c) shards), None).
Proof.
  intros Hall. unfold run. rewrite GetAllServerURIs_unfold.
  unfold bind. now rewrite server_loop_ok.
Qed.

Lemma GetAllServerURIs_panics (shards : list Shard) (c : ConnString) (o : Oracle) :
  Exists (fun shard => ~ has_separator shard) shards ->
  run (GetAllServerURIs shards c) o = Panic.
Proof.
  intros Hex. unfold run. rewrite GetAllServerURIs_unfold.
  unfold bind. now rewrite server_loop_panics.
Qed.

(** ** Counting occurrences *)

Lemma Contains_cons_false (a : ascii) (s sub : string) :
  Contains (String a s) sub = false ->
  HasPrefix (String a s) sub = false /\ Contains s sub = false.
Proof. rewrite Contains_cons. apply orb_false_elim. Qed.

Lemma Occurrences_absent (s sub : string) :
  Contains s sub = false -> Occurrences s sub = 0%nat.
Proof.
  induction s as [|a s IH]; intros H.
  - rewrite Contains_nil in H. cbn [Occurrences]. now rewrite H.
  - apply Contains_cons_false in H as [H1 H2].
    cbn [Occurrences]. rewrite H1, IH by assumption. reflexivity.
Qed.

Lemma Contains_longer_false (s k x : string) :
  Contains s k = false -> Contains s (k +:+ x) = false.
Proof.
  induction s as [|a s IH]; intros H.
  - rewrite Contains_nil in *.
    destruct (HasPrefix "" (k +:+ x)) eqn:E; [|reflexivity].
    apply HasPrefix_app_l in E. congruence.
  - apply Contains_cons_false in H as [H1 H2]. rewrite Contains_cons.
    rewrite IH by assumption.
    destruct (HasPrefix (String a s) (k +:+ x)) eqn:E; [|reflexivity].
    apply HasPrefix_app_l in E. congruence.
Qed.

(** A match cannot run across a byte that the pattern does not have. *)
Lemma HasPrefix_across (p r k : string) (c : ascii) :
  mentions k c = false ->
  HasPrefix (p +:+ String c r) k = true -> HasPrefix p k = true.
Proof.
  revert p; induction k as [|b k IH]; intros p Hc H; [reflexivity|].
  cbn [mentions] in Hc. apply orb_false_elim in Hc as [Hb Hk].
  destruct p as [|a p]; simpl in *.
  - rewrite Ascii.eqb_sym, Hb in H. discriminate.
  - destruct (Ascii.eqb a b); [now apply IH | discriminate].
Qed.

Lemma Contains_across (p r k : string) (c : ascii) :
  mentions k c = false ->
  Contains p k = false -> Contains (String c r) k = false ->
  Contains (p +:+ String c r) k = false.
Proof.
  intros Hc. induction p as [|a p IH]; intros Hp Hr; [exact Hr|].
  apply Contains_cons_false in Hp as [H1 H2].
  change (String a p +:+ String c r) with (String a (p +:+ String c r)).
  rewrite Contains_cons, IH by assumption.
  destruct (HasPrefix (String a (p +:+ String c r)) k) eqn:E; [|reflexivity].
  change (String a (p +:+ String c r)) with (String a p +:+ String c r) in E.
  apply HasPrefix_across in E; [congruence | assumption].
Qed.

Lemma Occurrences_across (p r k x : string) (c : ascii) :
  mentions k c = false -> Contains p k = false ->
  Occurrences (p +:+ String c r) (k +:+ x)
  = Occurrences (String c r) (k +:+ x).
Proof.
  intros Hc. induction p as [|a p IH]; intros Hp; [reflexivity|].
  apply Contains_cons_false in Hp as [H1 H2].
  change (String a p +:+ String c r) with (String a (p +:+ String c r)).
  cbn [Occurrences]. fold (Occurrences (String c r) (k +:+ x)).
  rewrite IH by assumption.
  destruct (HasPrefix (String a (p +:+ String c r)) (k +:+ x)) eqn:E;
    [|reflexivity].
  apply HasPrefix_app_l in E.
  change (String a (p +:+ String c r)) with (String a p +:+ String c r) in E.
  apply HasPrefix_across in E; [congruence | assumption].
Qed.

(** [replicaSet=<name>] is written once after the [?]; it occurs a second
    time only if [replicaSet=] occurs in what surrounds it. *)
Lemma replicaSet_once (head name tail : string) :
  Contains head "replicaSet=" = false ->
  Contains (name +:+ tail) "replicaSet=" = false ->
  Occurrences (head +:+ "?replicaSet=" +:+ name +:+ tail)
    ("replicaSet=" +:+ name) = 1%nat.
Proof.
  intros Hhead Htail.
  change ("?replicaSet=" +:+ name +:+ tail)
    with (String "?" ("replicaSet=" +:+ name +:+ tail)).
  rewrite Occurrences_across by (assumption || reflexivity).
  pose proof (HasPrefix_app ("replicaSet=" +:+ name) tail) as Hhit.
  rewrite app_assoc in Hhit.
  apply (Contains_longer_false _ _ name), Occurrences_absent in Htail.
  simpl in *. now rewrite Hhit, Htail.
Qed.

(** * The claims *)

(** ** C1 *)

(** The replica set of a shard need not be named after the shard: here the
    shard [shard01] is backed by the replica set [rs0], and the URI names
    [rs0]. *)
Lemma replicaSet_is_not_the_id :
  run (GetAllShardURIs [shard_of "shard01" "rs0/h1:27018"] example_config) []
  = Ok (["mongodb://h1:27018/admin?replicaSet=rs0"], None)
  /\ Occurrences "mongodb://h1:27018/admin?replicaSet=rs0" "replicaSet=shard01"
     = 0%nat.
Proof. split; vm_compute; reflexivity. Qed.

(** C1, amended: when every [Host] field has its ["/"], [GetAllShardURIs]
    returns one URI per shard, in the order of the shards, and a [nil] error;
    the URI of a shard reads [<head>?replicaSet=<setName><tail>], where
    [setName] is the text of the [Host] field before its first ["/"] (not the
    [ID] field) and [head] is the scheme, credentials, member list and
    database; it contains [replicaSet=<setName>], and contains it exactly once
    provided [replicaSet=] occurs neither in [head] nor in [setName] followed
    by [tail]. *)
Theorem discovery_uri_replicaSet (shards : list Shard) (c : ConnString)
    (o : Oracle) :
  Forall has_separator shards ->
  exists uris,
    run (GetAllShardURIs shards c) o = Ok (uris, None) /\
    Forall2
      (fun shard uri =>
         exists tail,
           uri = discovery_head c shard +:+ "?replicaSet=" +:+ setName_of shard
                   +:+ tail /\
           Contains uri ("replicaSet=" +:+ setName_of shard) = true /\
           (Contains (discovery_head c shard) "replicaSet=" = false ->
            Contains (setName_of shard +:+ tail) "replicaSet=" = false ->
            Occurrences uri ("replicaSet=" +:+ setName_of shard) = 1%nat))
      shards uris.
Proof.
  intros Hall.
  destruct (GetAllShardURIs_ok shards c o Hall) as (uris & Hrun & Huris).
  exists uris. split; [exact Hrun|].
  eapply Forall2_impl; [exact Huris|].
  intros shard uri (params & _ & ->). cbv beta.
  exists (discovery_auth c (HasPrefix (Original c) "mongodb+srv") +:+ params).
  unfold discovery_uri. split; [reflexivity|]. split.
  - replace (discovery_head c shard +:+ "?replicaSet=" +:+ setName_of shard +:+
             discovery_auth c (HasPrefix (Original c) "mongodb+srv") +:+ params)
      with ((discovery_head c shard +:+ "?")
            +:+ ("replicaSet=" +:+ setName_of shard)
            +:+ discovery_auth c (HasPrefix (Original c) "mongodb+srv") +:+ params)
      by (norm_app; reflexivity).
    apply Contains_app_mid.
  - apply replicaSet_once.
Qed.

Lemma discovery_uri_replicaSet_witness :
  Forall has_separator [example_shard] /\
  Occurrences "mongodb://h1:27018,h2:27018/admin?replicaSet=shard01"
    "replicaSet=shard01" = 1%nat.
Proof.
  assert (Forall has_separator [example_shard]) as Hsep
    by (repeat constructor).
  split; [exact Hsep|].
  destruct (discovery_uri_replicaSet [example_shard] example_config [] Hsep)
    as (uris & Hrun & Huris).
  vm_compute in Hrun. injection Hrun as <-.
  inversion Huris as [|shard uri shards uris (tail & Heq & _ & Honce) _];
    subst.
  vm_compute in Heq. injection Heq as <-.
  apply Honce; reflexivity.
Defined.

(** When the [Host] field is the shard's [ID], a ["/"] and the members, the
    two names agree. *)
Lemma setName_is_id (shard : Shard) (members : string) :
  Host shard = ID shard +:+ "/" +:+ members ->
  Contains (ID shard) "/" = false ->
  setName_of shard = ID shard.
Proof.
  intros Hhost Hid. unfold setName_of. rewrite Hhost.
  assert (index_of (ID shard +:+ "/" +:+ members) "/"
          = Some (String.length (ID shard))) as E.
  { clear Hhost. induction (ID shard) as [|x a IH]; [reflexivity|].
    apply Contains_cons_false in Hid as [Hx Ha].
    change (String x a +:+ "/" +:+ members)
      with (String x (a +:+ "/" +:+ members)).
    cbn [index_of]. cbn [HasPrefix] in Hx |- *.
    destruct (Ascii.eqb x "/"); [discriminate|].
    now rewrite (IH Ha). }
  unfold Index. rewrite E, Nat2Z.id. apply take_app_length.
Qed.

(** ** C2 *)

(** C2, at the failing inputs: a [Host] field without ["/"] makes both
    builders panic, whatever the configuration; a [Host] field with nothing
    after the ["/"] is accepted by both, which return a URI without a host
    and a [nil] error. *)
Theorem malformed_host_not_reported (c : ConnString) (o : Oracle) :
  run (GetAllShardURIs [shard_of "shard01" "h1:27018,h2:27018"] c) o = Panic
  /\ run (GetAllServerURIs [shard_of "shard01" "h1:27018,h2:27018"] c) o = Panic
  /\ run (GetAllShardURIs [shard_of "shard01" "shard01/"] example_config) o
     = Ok (["mongodb:///admin?replicaSet=shard01"], None)
  /\ run (GetAllServerURIs [shard_of "shard01" "shard01/"] example_config) o
     = Ok (["mongodb:///?replicaSet=shard01&"], None).
Proof.
  split; [|split; [|split]].
  - apply GetAllShardURIs_panics. constructor. vm_compute. discriminate.
  - apply GetAllServerURIs_panics. constructor. vm_compute. discriminate.
  - reflexivity.
  - reflexivity.
Qed.

(** ** C3: members that are renamed *)

(** Without seed hosts a member of that shape is still renamed: the URI
    addresses a host that the [Host] field does not report. *)
Lemma marker_made_up_without_seeds :
  Hosts example_config = []
  /\ resolve_host (seed_tables []).1 (seed_tables []).2
       "prod-x-shard-00-00.abc.gcp.mongodb.net:27017"
     = Ok "prod-x-shard-00-00-pri.abc.gcp.mongodb.net:27017"
  /\ run (GetAllServerURIs
            [shard_of "shard01"
               "shard01/prod-x-shard-00-00.abc.gcp.mongodb.net:27017"]
            example_config) []
     = Ok (["mongodb://prod-x-shard-00-00-pri.abc.gcp.mongodb.net:27017/?replicaSet=shard01&"],
           None).
Proof. repeat split; vm_compute; reflexivity. Qed.

Lemma Contains_inv (s sub : string) :
  Contains s sub = true -> exists a b, s = a +:+ sub +:+ b.
Proof.
  induction s as [|x s IH]; intros H.
  - rewrite Contains_nil in H. apply HasPrefix_inv in H.
    exists EmptyString. eauto.
  - rewrite Contains_cons in H.
    destruct (HasPrefix (String x s) sub) eqn:E.
    + apply HasPrefix_inv in E. exists EmptyString. eauto.
    + destruct (IH H) as (a & b & ->). exists (String x a), b. reflexivity.
Qed.

Lemma Contains_take (n : nat) (s sub : string) :
  Contains s sub = false -> Contains (take n s) sub = false.
Proof.
  intros H. destruct (Contains (take n s) sub) eqn:E; [|reflexivity].
  apply Contains_inv in E as (a & b & E).
  rewrite <- (take_drop n s), E in H.
  replace ((a +:+ sub +:+ b) +:+ drop n s) with (a +:+ sub +:+ (b +:+ drop n s))
    in H by (now rewrite !app_assoc).
  now rewrite Contains_app_mid in H.
Qed.

Lemma host_name_unmarked (seed : string) :
  Contains seed "-pri" = false -> Contains (host_name seed) "-pri" = false.
Proof.
  intros H. unfold host_name. destruct (0 <? Index seed ":"); [|exact H].
  now apply Contains_take.
Qed.

Lemma host_name_port (host : string) : host_name host +:+ host_port host = host.
Proof.
  unfold host_name, host_port. destruct (0 <? Index host ":").
  - apply take_drop.
  - apply app_nil_r.
Qed.

(** A seed host without marker still renames the member whose first label it
    shares. *)
Lemma unmarked_seed_renames :
  Forall (fun seed => Contains seed "-pri" = false) (Hosts unmarked_seed_config)
  /\ run (GetAllServerURIs [shard_of "shard01" "shard01/h1.internal:27018"]
            unmarked_seed_config) []
     = Ok (["mongodb://h1.example.net:27018/?replicaSet=shard01&"], None).
Proof. split; [repeat constructor | vm_compute; reflexivity]. Qed.

(** ** C4 *)

(** C4, at its input: the discovery URI is the one the claim gives; each of
    the two direct URIs ends in an ["&"] that the claim does not have. The
    same holds when the configuration comes from a connection string that
    names a router. *)
Theorem end_to_end_example (o : Oracle) :
  run (GetAllShardURIs [example_shard] example_config) o
  = Ok (["mongodb://h1:27018,h2:27018/admin?replicaSet=shard01"], None)
  /\ run (GetAllServerURIs [example_shard] example_config) o
     = Ok (["mongodb://h1:27018/?replicaSet=shard01&";
            "mongodb://h2:27018/?replicaSet=shard01&"], None)
  /\ run (GetAllServerURIs [example_shard] example_config) o
     <> Ok (["mongodb://h1:27018/?replicaSet=shard01";
             "mongodb://h2:27018/?replicaSet=shard01"], None)
  /\ run (GetAllServerURIs [example_shard] mongos_config) o
     = Ok (["mongodb://h1:27018/?replicaSet=shard01&";
            "mongodb://h2:27018/?replicaSet=shard01&"], None).
Proof.
  split; [reflexivity|]. split; [reflexivity|]. split; [discriminate|].
  rewrite GetAllServerURIs_ok by (repeat constructor).
  vm_compute. reflexivity.
Qed.

(** ** C5 *)






Lemma direct_uris_all (P : string -> Prop) (c : ConnString) (shards : list Shard) :
  (forall setName finalHost,
     P (direct_uri c (HasPrefix (Original c) "mongodb+srv") setName finalHost)) ->
  Forall P (concat (map (direct_uris c) shards)).
Proof.
  intros HP. apply List.Forall_forall. intros uri Hin.
  apply in_concat in Hin as (l & Hl & Hin).
  apply in_map_iff in Hl as (shard & <- & _).
  unfold direct_uris in Hin. apply in_map_iff in Hin as (host & <- & _).
  apply HP.
Qed.

Lemma discovery_uris_all (P : string -> Prop) (c : ConnString)
    (shards : list Shard) (uris : list string) :
  (forall shard params,
     P (discovery_uri c (HasPrefix (Original c) "mongodb+srv") shard params)) ->
  Forall2 (fun shard uri =>
             exists params, discovery_params c params /\
               uri = discovery_uri c (HasPrefix (Original c) "mongodb+srv")
                       shard params)
          shards uris ->
  Forall P uris.
Proof.
  intros HP. induction 1 as [|shard uri ? ? (params & _ & ->) _ IH];
    constructor; [apply HP | exact IH].
Qed.



(** ** C6: the order of a [range] over a map *)

(** Two evaluations on the same configuration and mode, which differ in the
    order the Go runtime picks for the [range] over the tag set. *)
Lemma tag_order_varies :
  run (GetQueryParams tagged_config false) [0%nat]
  = Ok "&readPreferenceTags=rack:1dc:east,"
  /\ run (GetQueryParams tagged_config false) [1%nat]
     = Ok "&readPreferenceTags=dc:eastrack:1,".
Proof. split; vm_compute; reflexivity. Qed.

Lemma order_of_Permutation (amap : gmap string string) (choice : nat) :
  map_to_list amap ≡ₚ order_of amap choice.
Proof.
  unfold order_of.
  destruct (permutations (map_to_list amap) !! choice) as [l|] eqn:E; simpl;
    [|reflexivity].
  apply permutations_Permutation. eapply list_elem_of_lookup_2, E.
Qed.

(** Every order of the entries is the choice of some oracle. *)
Lemma order_of_complete (amap : gmap string string)
    (entries : list (string * string)) :
  map_to_list amap ≡ₚ entries -> exists choice, order_of amap choice = entries.
Proof.
  intros Hperm. apply permutations_Permutation in Hperm.
  apply list_elem_of_lookup_1 in Hperm as [choice E].
  exists choice. unfold order_of. now rewrite E.
Qed.

(** ** C7 *)

Lemma resolved_example :
  resolved (seed_tables ["prod-x-shard-00-00-pri.example.net"])
    "prod-x-shard-00-00.example.net:27017"
  = "prod-x-shard-00-00-pri.example.net:27017".
Proof. vm_compute. reflexivity. Qed.

(** C7: with the single seed host [prod-x-shard-00-00-pri.example.net], the
    member [prod-x-shard-00-00.example.net:27017] is resolved to
    [prod-x-shard-00-00-pri.example.net:27017], and wherever a shard lists
    that member [GetAllServerURIs] returns the URI that addresses the resolved
    host. *)
Theorem seed_form_preferred (c : ConnString) :
  Hosts c = ["prod-x-shard-00-00-pri.example.net"] ->
  resolve_host (seed_tables (Hosts c)).1 (seed_tables (Hosts c)).2
    "prod-x-shard-00-00.example.net:27017"
  = Ok "prod-x-shard-00-00-pri.example.net:27017"
  /\ forall (shards : list Shard) (shard : Shard) (o : Oracle),
       Forall has_separator shards ->
       In shard shards ->
       In "prod-x-shard-00-00.example.net:27017" (members_of shard) ->
       exists uris,
         run (GetAllServerURIs shards c) o = Ok (uris, None) /\
         In (direct_uri c (HasPrefix (Original c) "mongodb+srv")
               (setName_of shard) "prod-x-shard-00-00-pri.example.net:27017")
            uris.
Proof.
  intros Hseed. split.
  - rewrite Hseed. vm_compute. reflexivity.
  - intros shards shard o Hall Hshard Hmember.
    exists (concat (map (direct_uris c) shards)).
    split; [now apply GetAllServerURIs_ok|].
    apply in_concat. exists (direct_uris c shard).
    split; [now apply in_map|].
    unfold direct_uris. rewrite Hseed, <- resolved_example.
    now apply (in_map (fun host => direct_uri c _ _ (resolved _ host))).
Qed.

Lemma seed_form_preferred_witness :
  Hosts pri_seed_config = ["prod-x-shard-00-00-pri.example.net"]
  /\ resolve_host (seed_tables (Hosts pri_seed_config)).1
       (seed_tables (Hosts pri_seed_config)).2
       "prod-x-shard-00-00.example.net:27017"
     = Ok "prod-x-shard-00-00-pri.example.net:27017"
  /\ exists uris,
       run (GetAllServerURIs
              [shard_of "shard01"
                 "shard01/h1:27018,prod-x-shard-00-00.example.net:27017"]
              pri_seed_config) []
       = Ok (uris, None)
       /\ In "mongodb://prod-x-shard-00-00-pri.example.net:27017/?replicaSet=shard01&"
            uris.
Proof.
  split; [reflexivity|].
  destruct (seed_form_preferred pri_seed_config eq_refl) as [Hhost Huris].
  split; [exact Hhost|].
  apply (Huris
           [shard_of "shard01"
              "shard01/h1:27018,prod-x-shard-00-00.example.net:27017"]
           (shard_of "shard01"
              "shard01/h1:27018,prod-x-shard-00-00.example.net:27017") []).
  - repeat constructor.
  - left. reflexivity.
  - right. left. reflexivity.
Defined.

(** ** Bytes and patterns *)

(** A pattern does not occur in a text that lacks its first byte. *)
Lemma Contains_first_byte (s sub : string) (b : ascii) :
  mentions s b = false -> Contains s (String b sub) = false.
Proof.
  induction s as [|a s IH]; intros H; [reflexivity|].
  cbn [mentions] in H. apply orb_false_elim in H as [Ha Hs].
  rewrite Contains_cons, IH by assumption. cbn [HasPrefix]. now rewrite Ha.
Qed.

Lemma mentions_app (a b : string) (c : ascii) :
  mentions (a +:+ b) c = mentions a c || mentions b c.
Proof.
  induction a as [|x a IH]; [reflexivity|].
  change (String x a +:+ b) with (String x (a +:+ b)). cbn [mentions].
  now rewrite IH, orb_assoc.
Qed.

(** ** C9 *)

(** C9: without shards both builders return the empty list and a [nil]
    error. *)
Theorem empty_topology (c : ConnString) (o : Oracle) :
  run (GetAllShardURIs [] c) o = Ok ([], None)
  /\ run (GetAllServerURIs [] c) o = Ok ([], None).
Proof.
  split.
  - reflexivity.
  - now rewrite GetAllServerURIs_ok by constructor.
Qed.

(** ** C10 *)

(** C10: whenever one of the builders returns, the error it returns is
    [nil]. *)
Theorem error_always_nil (shards : list Shard) (c : ConnString) (o : Oracle)
    (uris : list string) (err : option error) :
  run (GetAllShardURIs shards c) o = Ok (uris, err)
  \/ run (GetAllServerURIs shards c) o = Ok (uris, err) ->
  err = None.
Proof.
  intros [H|H]; revert H; unfold run.
  - unfold GetAllShardURIs, bind, ret.
    destruct (for_each _ shards [] o) as [[l o']|]; congruence.
  - rewrite GetAllServerURIs_unfold. unfold bind, ret.
    destruct (for_each _ shards [] o) as [[l o']|]; congruence.
Qed.

Lemma error_always_nil_witness :
  run (GetAllServerURIs [example_shard] example_config) []
  = Ok (["mongodb://h1:27018/?replicaSet=shard01&";
         "mongodb://h2:27018/?replicaSet=shard01&"], None)
  /\ @None error = None.
Proof.
  assert (run (GetAllServerURIs [example_shard] example_config) []
          = Ok (["mongodb://h1:27018/?replicaSet=shard01&";
                 "mongodb://h2:27018/?replicaSet=shard01&"], None)) as Hrun
    by reflexivity.
  split; [exact Hrun|].
  exact (error_always_nil [example_shard] example_config [] _ None
           (or_intror Hrun)).
Defined.

(** * Further properties of the resolver *)

(** ** When the builders panic *)

Lemma separator_cases (shards : list Shard) :
  Forall has_separator shards
  \/ Exists (fun shard => ~ has_separator shard) shards.
Proof.
  induction shards as [|shard shards [IH|IH]].
  - left. constructor.
  - destruct (decide (has_separator shard)) as [Hsep|Hsep].
    + left. now constructor.
    + right. now constructor.
  - right. now constructor.
Qed.

Lemma missing_separator (shards : list Shard) :
  Exists (fun shard => Contains (Host shard) "/" = false) shards
  <-> Exists (fun shard => ~ has_separator shard) shards.
Proof.
  split; apply List.Exists_impl; intros shard; unfold has_separator;
    destruct (Contains (Host shard) "/"); congruence.
Qed.

(** Both builders panic exactly when the [Host] field of some shard has no
    ["/"]: no seed host, member, credential or option makes them panic, and
    no oracle avoids the panic. *)
Theorem builders_panic_iff (shards : list Shard) (c : ConnString) (o : Oracle) :
  (run (GetAllShardURIs shards c) o = Panic
   <-> Exists (fun shard => Contains (Host shard) "/" = false) shards)
  /\ (run (GetAllServerURIs shards c) o = Panic
      <-> Exists (fun shard => Contains (Host shard) "/" = false) shards).
Proof.
  rewrite missing_separator. split; split.
  - intros Hpanic. destruct (separator_cases shards) as [Hall|Hex]; [|exact Hex].
    destruct (GetAllShardURIs_ok shards c o Hall) as (uris & Hrun & _).
    congruence.
  - apply GetAllShardURIs_panics.
  - intros Hpanic. destruct (separator_cases shards) as [Hall|Hex]; [|exact Hex].
    rewrite GetAllServerURIs_ok in Hpanic by assumption. discriminate.
  - apply GetAllServerURIs_panics.
Qed.

(** ** How many URIs direct mode returns *)

Lemma Split_length (s : string) (sep : ascii) :
  length (Split s sep) = S (count_byte s sep).
Proof.
  induction s as [|a s IH]; [reflexivity|].
  cbn [Split count_byte]. destruct (Ascii.eqb a sep).
  - cbn [length]. now rewrite IH.
  - destruct (Split s sep) as [|h t]; [discriminate|]. exact IH.
Qed.

(** Direct mode returns, for each shard, one URI more than its member list
    has commas, whatever the order of map iteration: a shard is never
    skipped, not even one whose member list is empty. *)
Theorem direct_uri_count (shards : list Shard) (c : ConnString) (o : Oracle)
    (uris : list string) (err : option error) :
  run (GetAllServerURIs shards c) o = Ok (uris, err) ->
  length uris
  = list_sum (map (fun shard => S (count_byte (allHosts_of shard) ",")) shards)
  /\ (length shards <= length uris)%nat.
Proof.
  intros Hrun.
  destruct (separator_cases shards) as [Hall|Hex];
    [|rewrite GetAllServerURIs_panics in Hrun by assumption; discriminate].
  rewrite GetAllServerURIs_ok in Hrun by assumption.
  injection Hrun as <- _. clear Hall.
  assert (length (concat (map (direct_uris c) shards))
          = list_sum (map (fun shard => S (count_byte (allHosts_of shard) ","))
                        shards)) as E.
  { induction shards as [|shard shards IH]; [reflexivity|].
    cbn [map concat]. rewrite List.length_app, IH.
    unfold direct_uris, members_of. rewrite List.length_map, Split_length.
    reflexivity. }
  split; [exact E|]. rewrite E. clear E.
  induction shards as [|shard shards IH]; simpl in *; lia.
Qed.

Lemma direct_uri_count_witness :
  run (GetAllServerURIs [example_shard] example_config) []
  = Ok (["mongodb://h1:27018/?replicaSet=shard01&";
         "mongodb://h2:27018/?replicaSet=shard01&"], None)
  /\ length ["mongodb://h1:27018/?replicaSet=shard01&";
             "mongodb://h2:27018/?replicaSet=shard01&"]
     = list_sum (map (fun shard => S (count_byte (allHosts_of shard) ","))
                   [example_shard]).
Proof.
  assert (run (GetAllServerURIs [example_shard] example_config) []
          = Ok (["mongodb://h1:27018/?replicaSet=shard01&";
                 "mongodb://h2:27018/?replicaSet=shard01&"], None)) as Hrun
    by reflexivity.
  split; [exact Hrun|].
  exact (proj1 (direct_uri_count [example_shard] example_config [] _ _ Hrun)).
Defined.

(** ** Cutting the [Host] field loses nothing *)

Lemma index_of_HasPrefix (s sub : string) (n : nat) :
  index_of s sub = Some n -> HasPrefix (drop n s) sub = true.
Proof.
  revert n; induction s as [|a s IH]; intros n; cbn [index_of].
  - destruct (HasPrefix "" sub) eqn:E; [|discriminate]. now intros [= <-].
  - destruct (HasPrefix (String a s) sub) eqn:E; [now intros [= <-]|].
    destruct (index_of s sub) as [m|]; [|discriminate].
    intros [= <-]. cbn [drop]. now apply IH.
Qed.

Lemma Split_nonempty (s : string) (sep : ascii) : Split s sep <> [].
Proof.
  intros E. pose proof (Split_length s sep) as H. now rewrite E in H.
Qed.

Lemma Join_cons (x : string) (l : list string) (sep : string) :
  l <> [] -> Join (x :: l) sep = x +:+ sep +:+ Join l sep.
Proof. destruct l; [contradiction|reflexivity]. Qed.

Lemma Join_Split (s : string) (sep : ascii) :
  Join (Split s sep) (String sep EmptyString) = s.
Proof.
  induction s as [|a s IH]; [reflexivity|]. cbn [Split].
  destruct (Ascii.eqb_spec a sep) as [->|Hne].
  - rewrite Join_cons by apply Split_nonempty. now rewrite IH.
  - pose proof (Split_nonempty s sep) as Hs.
    destruct (Split s sep) as [|h t]; [contradiction|].
    destruct t as [|h' t].
    + change (String a h = String a s). f_equal. exact IH.
    + change (String a (h +:+ String sep "" +:+ Join (h' :: t) (String sep ""))
              = String a s).
      f_equal. exact IH.
Qed.

Lemma Split_without_sep (s : string) (sep : ascii) :
  Forall (fun piece => count_byte piece sep = 0%nat) (Split s sep).
Proof.
  induction s as [|a s IH]; [repeat constructor|]. cbn [Split].
  destruct (Ascii.eqb a sep) eqn:E; [now constructor|].
  destruct (Split s sep) as [|h t]; [repeat constructor; cbn; now rewrite E|].
  inversion IH; subst. constructor; [|assumption].
  cbn [count_byte]. now rewrite E.
Qed.

(** From the set name and the members that the builders cut out of a [Host]
    field the field can be put together again: it is the set name, a ["/"]
    and the members joined by commas. The set name has no ["/"] and no member
    has a comma. *)
Theorem Host_cut_and_joined (shard : Shard) :
  Contains (Host shard) "/" = true ->
  Host shard = setName_of shard +:+ "/" +:+ Join (members_of shard) ","
  /\ count_byte (setName_of shard) "/" = 0%nat
  /\ Forall (fun member => count_byte member "," = 0%nat) (members_of shard).
Proof.
  intros Hsep. unfold members_of. rewrite Join_Split.
  split; [|split; [|apply Split_without_sep]].
  - unfold setName_of, allHosts_of, Contains, Index in *.
    destruct (index_of (Host shard) "/") as [n|] eqn:E; [|discriminate].
    apply index_of_HasPrefix, HasPrefix_inv in E.
    replace (Z.to_nat (Z.of_nat n + 1)) with (S n) by lia. rewrite Nat2Z.id.
    rewrite <- (take_drop n (Host shard)) at 1. f_equal.
    rewrite E at 1. cbn [String.length String.append]. f_equal.
    clear. revert n. induction (Host shard) as [|a s IH]; intros [|n];
      try reflexivity. cbn [drop]. apply IH.
  - unfold setName_of, Contains, Index in *.
    destruct (index_of (Host shard) "/") as [n|] eqn:E; [|discriminate].
    rewrite Nat2Z.id. clear Hsep. revert n E.
    induction (Host shard) as [|a s IH]; intros n; cbn [index_of].
    + now destruct n.
    + destruct (HasPrefix (String a s) "/") eqn:Hp; [now intros [= <-]|].
      destruct (index_of s "/") as [m|] eqn:Em; [|discriminate].
      intros [= <-]. cbn [take count_byte]. rewrite (IH m eq_refl).
      cbn [HasPrefix] in Hp. now destruct (Ascii.eqb a "/").
Qed.

Lemma Host_cut_and_joined_witness :
  Contains (Host example_shard) "/" = true
  /\ Host example_shard
     = setName_of example_shard +:+ "/" +:+ Join (members_of example_shard) ",".
Proof.
  split; [reflexivity|].
  exact (proj1 (Host_cut_and_joined example_shard eq_refl)).
Defined.

(** ** Only the [Host] field of a shard is read *)

Lemma shard_step_Host (c : ConnString) (isSRV : bool) (a b : Shard) :
  Host a = Host b ->
  forall uris, shard_step c isSRV uris a = shard_step c isSRV uris b.
Proof. intros E uris. unfold shard_step. now rewrite E. Qed.

Lemma server_step_Host (c : ConnString) (isSRV : bool)
    (m : gmap string string) (l : list string) (a b : Shard) :
  Host a = Host b ->
  forall uris, server_step c isSRV m l uris a = server_step c isSRV m l uris b.
Proof. intros E uris. unfold server_step. now rewrite E. Qed.

Lemma for_each_ext {A S : Type} (f g : S -> A -> M S) (l l' : list A) :
  Forall2 (fun x y => forall s, f s x = g s y) l l' ->
  forall s o, for_each f l s o = for_each g l' s o.
Proof.
  induction 1 as [|x y l l' Hxy _ IH]; intros s o; cbn [for_each];
    [reflexivity|].
  unfold bind. rewrite Hxy.
  destruct (g s y o) as [[s' o']|]; [|reflexivity]. apply IH.
Qed.

(** Two topologies whose shards have the same [Host] fields, one by one,
    give the same result in both modes: the [ID], [State] and [Tags] of a
    shard are never read. *)
Theorem only_Host_is_read (shards shards' : list Shard) (c : ConnString)
    (o : Oracle) :
  map Host shards = map Host shards' ->
  run (GetAllShardURIs shards c) o = run (GetAllShardURIs shards' c) o
  /\ run (GetAllServerURIs shards c) o = run (GetAllServerURIs shards' c) o.
Proof.
  intros Hhosts.
  assert (Forall2 (fun a b => Host a = Host b) shards shards') as H2.
  { revert shards' Hhosts.
    induction shards as [|a shards IH]; intros [|b shards'] E;
      try discriminate; constructor; injection E; auto. }
  split; unfold run.
  - unfold GetAllShardURIs, bind.
    rewrite (for_each_ext _ (shard_step c (Index (Original c) "mongodb+srv" =? 0))
               shards shards'); [reflexivity|].
    eapply Forall2_impl; [exact H2|]. intros a b E uris.
    now apply shard_step_Host.
  - rewrite !GetAllServerURIs_unfold. unfold bind.
    rewrite (for_each_ext _
               (server_step c (HasPrefix (Original c) "mongodb+srv")
                  (seed_tables (Hosts c)).1 (seed_tables (Hosts c)).2)
               shards shards'); [reflexivity|].
    eapply Forall2_impl; [exact H2|]. intros a b E uris.
    now apply server_step_Host.
Qed.

Lemma only_Host_is_read_witness :
  map Host [shard_of "shard01" "rs0/h1:27018"]
  = map Host [{| ID := "other"; Host := "rs0/h1:27018"; State := 0;
                 Tags := ["east"] |}]
  /\ run (GetAllShardURIs [shard_of "shard01" "rs0/h1:27018"] example_config) []
     = run (GetAllShardURIs
              [{| ID := "other"; Host := "rs0/h1:27018"; State := 0;
                  Tags := ["east"] |}] example_config) [].
Proof.
  split; [reflexivity|].
  exact (proj1 (only_Host_is_read [shard_of "shard01" "rs0/h1:27018"]
                  [{| ID := "other"; Host := "rs0/h1:27018"; State := 0;
                      Tags := ["east"] |}] example_config [] eq_refl)).
Defined.

(** ** The [authSource] of a direct URI with credentials *)

(** In direct mode a user name is never written without an [authSource]:
    when a user name is set, every URI has the [authSource] parameter right
    after the replica-set name. It is [admin] unless the connection string is
    not an SRV one and names another. *)
Theorem direct_credentials_have_authSource (shards : list Shard)
    (c : ConnString) (o : Oracle) (uris : list string) (err : option error) :
  nonempty (Username c) = true ->
  run (GetAllServerURIs shards c) o = Ok (uris, err) ->
  Forall (fun uri =>
            Contains uri
              ("&authSource="
               +:+ (if negb (HasPrefix (Original c) "mongodb+srv")
                       && nonempty (AuthSource c)
                    then AuthSource c else "admin")) = true)
    uris.
Proof.
  intros Huser Hrun.
  destruct (separator_cases shards) as [Hall|Hex];
    [|rewrite GetAllServerURIs_panics in Hrun by assumption; discriminate].
  rewrite GetAllServerURIs_ok in Hrun by assumption. injection Hrun as <- _.
  apply direct_uris_all. intros setName finalHost.
  unfold direct_uri, direct_auth. rewrite Huser.
  destruct (HasPrefix (Original c) "mongodb+srv"), (nonempty (AuthSource c));
    cbn [negb andb].
  - replace ("mongodb://" +:+ credentials c +:+ finalHost +:+ "/?replicaSet="
             +:+ setName +:+ "&" +:+ "authSource=admin&tls=true"
             +:+ direct_params c)
      with (("mongodb://" +:+ credentials c +:+ finalHost +:+ "/?replicaSet="
             +:+ setName)
            +:+ ("&authSource=" +:+ "admin")
            +:+ ("&tls=true" +:+ direct_params c))
      by (norm_app; reflexivity).
    apply Contains_app_mid.
  - replace ("mongodb://" +:+ credentials c +:+ finalHost +:+ "/?replicaSet="
             +:+ setName +:+ "&" +:+ "authSource=admin&tls=true"
             +:+ direct_params c)
      with (("mongodb://" +:+ credentials c +:+ finalHost +:+ "/?replicaSet="
             +:+ setName)
            +:+ ("&authSource=" +:+ "admin")
            +:+ ("&tls=true" +:+ direct_params c))
      by (norm_app; reflexivity).
    apply Contains_app_mid.
  - replace ("mongodb://" +:+ credentials c +:+ finalHost +:+ "/?replicaSet="
             +:+ setName +:+ "&" +:+ ("authSource=" +:+ AuthSource c)
             +:+ direct_params c)
      with (("mongodb://" +:+ credentials c +:+ finalHost +:+ "/?replicaSet="
             +:+ setName)
            +:+ ("&authSource=" +:+ AuthSource c)
            +:+ direct_params c)
      by (norm_app; reflexivity).
    apply Contains_app_mid.
  - replace ("mongodb://" +:+ credentials c +:+ finalHost +:+ "/?replicaSet="
             +:+ setName +:+ "&" +:+ "authSource=admin" +:+ direct_params c)
      with (("mongodb://" +:+ credentials c +:+ finalHost +:+ "/?replicaSet="
             +:+ setName)
            +:+ ("&authSource=" +:+ "admin")
            +:+ direct_params c)
      by (norm_app; reflexivity).
    apply Contains_app_mid.
Qed.

Lemma direct_credentials_have_authSource_witness :
  nonempty (Username srv_config) = true
  /\ run (GetAllServerURIs [example_shard] srv_config) []
     = Ok (["mongodb://u:p@h1:27018/?replicaSet=shard01&authSource=admin&tls=true";
            "mongodb://u:p@h2:27018/?replicaSet=shard01&authSource=admin&tls=true"],
           None)
  /\ Forall (fun uri => Contains uri "&authSource=admin" = true)
       ["mongodb://u:p@h1:27018/?replicaSet=shard01&authSource=admin&tls=true";
        "mongodb://u:p@h2:27018/?replicaSet=shard01&authSource=admin&tls=true"].
Proof.
  assert (run (GetAllServerURIs [example_shard] srv_config) []
          = Ok (["mongodb://u:p@h1:27018/?replicaSet=shard01&authSource=admin&tls=true";
                 "mongodb://u:p@h2:27018/?replicaSet=shard01&authSource=admin&tls=true"],
                None)) as Hrun
    by (vm_compute; reflexivity).
  split; [reflexivity|]. split; [exact Hrun|].
  exact (direct_credentials_have_authSource [example_shard] srv_config [] _ _
           eq_refl Hrun).
Defined.

(** ** The escaped password *)

Lemma QueryEscape_cons_bytes (a : ascii) (s : string) :
  exists unit,
    QueryEscape (String a s) = unit +:+ QueryEscape s
    /\ (forall c, mentions unit c = true -> escaped_byte c = true).
Proof.
  cbn [QueryEscape].
  destruct (shouldEscape a) eqn:Hesc; [destruct (Ascii.eqb a " ")|].
  - exists "+". split; [reflexivity|].
    intros c Hc. cbn [mentions] in Hc. rewrite orb_false_r in Hc.
    apply Ascii.eqb_eq in Hc as <-. reflexivity.
  - exists (String "%" (String (upperhex (N_of_ascii a / 16))
              (String (upperhex (N_of_ascii a mod 16)) EmptyString))).
    split; [reflexivity|].
    intros c Hc. cbn [mentions] in Hc. rewrite orb_false_r in Hc.
    apply orb_prop in Hc as [Hc|Hc]; [|apply orb_prop in Hc as [Hc|Hc]];
      apply Ascii.eqb_eq in Hc as <-; [reflexivity| |];
      clear; destruct a as [[] [] [] [] [] [] [] []]; reflexivity.
  - exists (String a EmptyString). split; [reflexivity|].
    intros c Hc. cbn [mentions] in Hc. rewrite orb_false_r in Hc.
    apply Ascii.eqb_eq in Hc as <-.
    revert Hesc. clear. destruct a as [[] [] [] [] [] [] [] []];
      vm_compute; congruence.
Qed.

(** The escaped password is made of letters, digits and the bytes
    [-_.~%+] only, so a password brings none of the delimiters of a URI into
    it. *)
Theorem QueryEscape_bytes (password : string) :
  (forall c, mentions (QueryEscape password) c = true -> escaped_byte c = true)
  /\ Forall (fun delimiter => mentions (QueryEscape password) delimiter = false)
       ["@"; ":"; "/"; "?"; "#"; "&"; "="; ","; " "]%char.
Proof.
  assert (forall c, mentions (QueryEscape password) c = true
                    -> escaped_byte c = true) as Hbytes.
  { induction password as [|a s IH]; intros c Hc; [discriminate|].
    destruct (QueryEscape_cons_bytes a s) as (unit & E & Hunit).
    rewrite E, mentions_app in Hc. apply orb_prop in Hc as [Hc|Hc]; auto. }
  split; [exact Hbytes|].
  repeat constructor;
    match goal with
    | |- mentions _ ?d = false =>
        destruct (mentions (QueryEscape password) d) eqn:E; [|reflexivity];
        apply Hbytes in E; discriminate
    end.
Qed.

Lemma unescape_head_QueryEscape (a : ascii) (s : string) :
  unescape_head (QueryEscape (String a s)) = Some (a, QueryEscape s).
Proof.
  destruct a as [[] [] [] [] [] [] [] []]; reflexivity.
Qed.

(** Escaping loses nothing: two passwords with the same escaped form are
    the same password. *)
Theorem QueryEscape_injective (password password' : string) :
  QueryEscape password = QueryEscape password' -> password = password'.
Proof.
  revert password'.
  induction password as [|a s IH]; intros [|b t] E.
  - reflexivity.
  - apply (f_equal unescape_head) in E.
    rewrite unescape_head_QueryEscape in E. discriminate.
  - apply (f_equal unescape_head) in E.
    rewrite unescape_head_QueryEscape in E. discriminate.
  - apply (f_equal unescape_head) in E.
    rewrite !unescape_head_QueryEscape in E. injection E as -> E.
    f_equal. now apply IH.
Qed.

Lemma QueryEscape_injective_witness :
  QueryEscape "p@ss w/rd" = QueryEscape "p@ss w/rd" /\ "p@ss w/rd" = "p@ss w/rd".
Proof.
  split; [reflexivity|].
  exact (QueryEscape_injective "p@ss w/rd" "p@ss w/rd" eq_refl).
Defined.

(** ** The tables built from the seed hosts *)

Lemma HasPrefix_take (n : nat) (s : string) : HasPrefix s (take n s) = true.
Proof.
  rewrite <- (take_drop n s) at 1. apply HasPrefix_app.
Qed.

Lemma HasPrefix_trans (s p q : string) :
  HasPrefix s p = true -> HasPrefix p q = true -> HasPrefix s q = true.
Proof.
  intros H1 H2. apply HasPrefix_inv in H1, H2.
  rewrite H1, H2, app_assoc. apply HasPrefix_app.
Qed.

Lemma seed_step_entries (m : gmap string string) (l : list string)
    (origHost : string) :
  exists m',
    seed_step (m, l) origHost = Ok (m', l ++ [host_name origHost]) /\
    forall key name,
      m' !! key = Some name ->
      m !! key = Some name
      \/ (name = host_name origHost /\ Contains name "-pri" = true
          /\ HasPrefix name key = true).
Proof.
  unfold seed_step.
  assert ((if 0 <? Index origHost ":"
           then slice_to origHost (Index origHost ":") else Ok origHost)
          = Ok (host_name origHost)) as ->.
  { unfold host_name.
    destruct (Z.ltb_spec 0 (Index origHost ":")); [|reflexivity].
    apply slice_to_Index. lia. }
  unfold bindR at 1. generalize (host_name origHost) as name. intros name.
  destruct (Contains name "-pri") eqn:Hpri; [|eexists; split; eauto].
  destruct (Z.ltb_spec 0 (Index name "-pri")) as [Hidx|Hidx];
    [|eexists; split; eauto].
  rewrite slice_to_Index by lia. unfold bindR at 1.
  set (base := take (Z.to_nat (Index name "-pri")) name).
  assert (HasPrefix name base = true) as Hbase by apply HasPrefix_take.
  destruct (Z.ltb_spec 0 (Index base ".")) as [Hdot|Hdot].
  - rewrite slice_to_Index by lia. unfold bindR.
    eexists; split; [reflexivity|]. intros key v Hkey.
    apply lookup_insert_Some in Hkey as [[<- <-]|[_ Hkey]]; [now right|].
    apply lookup_insert_Some in Hkey as [[<- <-]|[_ Hkey]]; [|now left].
    right. repeat split; [assumption|].
    eapply HasPrefix_trans; [exact Hbase|apply HasPrefix_take].
  - unfold bindR. eexists; split; [reflexivity|]. intros key v Hkey.
    apply lookup_insert_Some in Hkey as [[<- <-]|[_ Hkey]]; [now right|].
    now left.
Qed.

(** The loop over the seed hosts always ends. It leaves the list of the
    seed names, one per seed host and in their order; every entry of the map
    it leaves leads from a key to the name of a seed host that contains
    [-pri] and starts with the key. *)
Theorem seed_tables_entries (hosts : list string) :
  exists m,
    for_eachR seed_step hosts (∅, []) = Ok (m, map host_name hosts) /\
    forall key name,
      m !! key = Some name ->
      In name (map host_name hosts) /\ Contains name "-pri" = true
      /\ HasPrefix name key = true.
Proof.
  assert (forall m l,
            exists m',
              for_eachR seed_step hosts (m, l) = Ok (m', l ++ map host_name hosts)
              /\ forall key name,
                   m' !! key = Some name ->
                   m !! key = Some name
                   \/ (In name (map host_name hosts)
                       /\ Contains name "-pri" = true
                       /\ HasPrefix name key = true)) as Hloop.
  { induction hosts as [|h hosts IH]; intros m l; cbn [for_eachR map].
    - exists m. rewrite List.app_nil_r. split; [reflexivity|]. now left.
    - destruct (seed_step_entries m l h) as (m1 & -> & H1). unfold bindR at 1.
      destruct (IH m1 (l ++ [host_name h])) as (m' & -> & H').
      exists m'. split; [now rewrite <- List.app_assoc|].
      intros key name Hkey.
      destruct (H' key name Hkey) as [Hm1|(Hin & Hpri & Hpre)].
      + destruct (H1 key name Hm1) as [Hm|(-> & Hpri & Hpre)]; [now left|].
        right. repeat split; [now left|assumption..].
      + right. repeat split; [now right|assumption..]. }
  destruct (Hloop ∅ []) as (m & E & Hm). exists m. split; [exact E|].
  intros key name Hkey. destruct (Hm key name Hkey) as [Hempty|H]; [|exact H].
  now rewrite lookup_empty in Hempty.
Qed.

(** ** What the reconciler can return *)

Lemma scan_seeds_In (l : list string) (shardID origHost : string) :
  scan_seeds l shardID = Ok (Some origHost) -> In origHost l.
Proof.
  induction l as [|h l IH]; cbn [scan_seeds]; [discriminate|].
  destruct (seed_shardID_ok h) as [id ->]. unfold bindR at 1.
  destruct (String.eqb id shardID).
  - intros [= <-]. now left.
  - intros H. right. now apply IH.
Qed.

(** The name the reconciler makes up for a name that awaits the marker. *)
Lemma made_up_name_has_marker (hostname : string) :
  exists name,
    match Split hostname "." with
    | firstPart :: rest =>
        Ok (Replace [("-wucdt", "")] firstPart +:+ "-pri." +:+ Join rest ".")
    | [] =>
        if 0 <? Index hostname "."
        then
          let? before := slice_to hostname (Index hostname ".") in
          let? after := slice_from hostname (Index hostname ".") in
          Ok (before +:+ "-pri" +:+ after)
        else Ok hostname
    end = Ok name
    /\ Contains name "-pri" = true.
Proof.
  pose proof (Split_nonempty hostname ".") as Hs.
  destruct (Split hostname ".") as [|firstPart rest]; [contradiction|].
  eexists. split; [reflexivity|].
  change "-pri." with ("-pri" +:+ "."). rewrite app_assoc.
  apply Contains_app_mid.
Qed.

(** Whatever the tables, the reconciler returns the port of the member as
    it was reported, behind one of these names: a name from the map, a name
    from the list, the name of the member as reported, or, for a name that
    awaits the marker and matched no seed, a made-up name that contains
    [-pri]. *)
Theorem resolve_host_outcomes (m : gmap string string) (l : list string)
    (host : string) :
  exists name,
    resolve_host m l host = Ok (name +:+ host_port host)
    /\ ((exists key, m !! key = Some name)
        \/ In name l
        \/ (awaits_marker (host_name host) = false /\ name = host_name host)
        \/ (awaits_marker (host_name host) = true
            /\ Contains name "-pri" = true)).
Proof.
  unfold resolve_host.
  assert ((if 0 <? Index host ":"
           then let? hostname := slice_to host (Index host ":") in
                let? port := slice_from host (Index host ":") in
                Ok (hostname, port)
           else Ok (host, EmptyString))
          = Ok (host_name host, host_port host)) as ->.
  { unfold host_name, host_port.
    destruct (Z.ltb_spec 0 (Index host ":")); [|reflexivity].
    rewrite slice_to_Index, slice_from_Index0 by lia. reflexivity. }
  unfold bindR at 1.
  generalize (host_port host) as port. generalize (host_name host) as hostname.
  intros hostname port.
  assert (forall name, (if nonempty port then name +:+ port else name)
                       = name +:+ port) as Hport.
  { intros name. destruct port; [now rewrite app_nil_r|reflexivity]. }
  set (matching := if _ || _ then _ else _).
  assert ((exists name, matching = Ok (name, true)
                        /\ ((exists key, m !! key = Some name) \/ In name l))
          \/ matching = Ok (hostname, false)) as [(name & -> & Hname)| ->].
  { subst matching. destruct (_ || _); [|now right].
    destruct (Split hostname ".") as [|firstPart rest]; [now right|].
    destruct (member_shardID_ok firstPart) as [id ->]. unfold bindR.
    destruct (m !! id) as [origHost|] eqn:Hm.
    - left. exists origHost. split; [reflexivity|]. left. eauto.
    - destruct (scan_seeds l id) as [[origHost|]|] eqn:Hscan.
      + left. exists origHost. split; [reflexivity|]. right.
        eapply scan_seeds_In, Hscan.
      + right. reflexivity.
      + destruct (scan_seeds_ok l id) as [found E]. congruence. }
  - unfold bindR. cbn [negb andb]. rewrite Hport.
    exists name. split; [reflexivity|]. destruct Hname; auto.
  - unfold bindR at 1. cbn [negb andb]. unfold awaits_marker.
    destruct (Contains hostname "-shard-" && Contains hostname ".gcp.mongodb.net");
      cbn [andb].
    + destruct (Contains hostname "-pri"); cbn [negb].
      * unfold bindR. rewrite Hport. exists hostname. split; [reflexivity|].
        right. right. left. auto.
      * destruct (made_up_name_has_marker hostname) as (name & -> & Hmarker).
        unfold bindR. rewrite Hport. exists name. split; [reflexivity|].
        right. right. right. auto.
    + unfold bindR. rewrite Hport. exists hostname. split; [reflexivity|].
      right. right. left. auto.
Qed.

(** ** The last seed host with a marker *)

(** Let the last seed host hold [-pri], not at its start. A member whose
    identifier is the text of that seed name before [-pri] is resolved to
    the seed name, whatever the seed hosts before it, with the port of the
    member behind it. *)
Theorem last_marked_seed_wins (hosts : list string) (seed host : string) :
  0 < Index (host_name seed) "-pri" ->
  member_identifier host
  = take (Z.to_nat (Index (host_name seed) "-pri")) (host_name seed) ->
  resolve_host (seed_tables (hosts ++ [seed])).1 (seed_tables (hosts ++ [seed])).2
    host
  = Ok (host_name seed +:+ host_port host).
Proof.
  intros Hidx Hid.
  assert (exists m l,
            seed_tables (hosts ++ [seed]) = (m, l)
            /\ m !! member_identifier host = Some (host_name seed)
            /\ l <> []) as (m & l & -> & Hm & Hl).
  { unfold seed_tables.
    assert (forall acc,
              for_eachR seed_step (hosts ++ [seed]) acc
              = let? acc' := for_eachR seed_step hosts acc in
                seed_step acc' seed) as Happ.
    { induction hosts as [|h hosts IH]; intros acc; cbn [for_eachR app].
      - unfold bindR. now destruct (seed_step acc seed).
      - unfold bindR at 1 3. destruct (seed_step acc h); [apply IH|reflexivity]. }
    rewrite Happ. destruct (seed_loop_ok hosts ∅ []) as (m0 & -> & _).
    unfold bindR at 1. unfold seed_step.
    assert ((if 0 <? Index seed ":"
             then slice_to seed (Index seed ":") else Ok seed)
            = Ok (host_name seed)) as ->.
    { unfold host_name.
      destruct (Z.ltb_spec 0 (Index seed ":")); [|reflexivity].
      apply slice_to_Index. lia. }
    unfold bindR at 1.
    assert (Contains (host_name seed) "-pri" = true) as ->
      by (unfold Contains; apply Z.leb_le; lia).
    apply Z.ltb_lt in Hidx as Hlt. rewrite Hlt.
    rewrite slice_to_Index by lia. unfold bindR at 1. rewrite <- Hid.
    destruct (Z.ltb_spec 0 (Index (member_identifier host) ".")).
    - rewrite slice_to_Index by lia. unfold bindR.
      do 2 eexists. split; [reflexivity|].
      split; [apply lookup_insert_eq|]. now destruct (map host_name hosts).
    - unfold bindR. do 2 eexists. split; [reflexivity|].
      split; [apply lookup_insert_eq|]. now destruct (map host_name hosts). }
  cbn [fst snd]. unfold resolve_host.
  assert ((if 0 <? Index host ":"
           then let? hostname := slice_to host (Index host ":") in
                let? port := slice_from host (Index host ":") in
                Ok (hostname, port)
           else Ok (host, EmptyString))
          = Ok (host_name host, host_port host)) as ->.
  { unfold host_name, host_port.
    destruct (Z.ltb_spec 0 (Index host ":")); [|reflexivity].
    rewrite slice_to_Index, slice_from_Index0 by lia. reflexivity. }
  unfold bindR at 1.
  assert ((0 <? Z.of_nat (size m)) || (0 <? Z.of_nat (length l)) = true) as ->.
  { destruct l; [contradiction|]. cbn [length]. apply orb_true_iff. right.
    apply Z.ltb_lt. lia. }
  unfold member_identifier, first_label in Hm.
  pose proof (Split_nonempty (host_name host) ".") as Hs.
  destruct (Split (host_name host) ".") as [|firstPart rest]; [contradiction|].
  destruct (member_shardID_ok firstPart) as [id E]. rewrite E in *.
  unfold bindR at 2. rewrite Hm. unfold bindR. cbn [negb andb].
  f_equal. destruct (host_port host); [now rewrite app_nil_r|reflexivity].
Qed.

Lemma last_marked_seed_wins_witness :
  0 < Index (host_name "prod-x-shard-00-00-pri.example.net:27016") "-pri"
  /\ member_identifier "prod-x-shard-00-00.example.net:27017"
     = take (Z.to_nat (Index (host_name "prod-x-shard-00-00-pri.example.net:27016")
                         "-pri"))
         (host_name "prod-x-shard-00-00-pri.example.net:27016")
  /\ resolve_host
       (seed_tables ["prod-x-shard-00-00.example.net:27016";
                     "prod-x-shard-00-00-pri.example.net:27016"]).1
       (seed_tables ["prod-x-shard-00-00.example.net:27016";
                     "prod-x-shard-00-00-pri.example.net:27016"]).2
       "prod-x-shard-00-00.example.net:27017"
     = Ok "prod-x-shard-00-00-pri.example.net:27017".
Proof.
  assert (0 < Index (host_name "prod-x-shard-00-00-pri.example.net:27016") "-pri")
    as Hidx by reflexivity.
  split; [exact Hidx|]. split; [reflexivity|].
  exact (last_marked_seed_wins ["prod-x-shard-00-00.example.net:27016"]
           "prod-x-shard-00-00-pri.example.net:27016"
           "prod-x-shard-00-00.example.net:27017" Hidx eq_refl).
Defined.

(** ** Values without their flag *)

(** A CA file or a certificate key file whose flag is not set, and a named
    write concern beside a numeric one, are not written: the result is the
    one for the configuration without them. *)
Theorem unflagged_values_not_written (c : ConnString) (direct : bool)
    (o : Oracle) :
  GetQueryParams (effective c) direct o = GetQueryParams c direct o.
Proof.
  unfold GetQueryParams, effective. cbn [SSLSet SSLCaFileSet SSLCaFile
    SSLClientCertificateKeyFileSet SSLClientCertificateKeyFile SSLInsecureSet
    ReadPreference ReadPreferenceTagSets WNumberSet WNumber WString
    RetryReadsSet RetryWritesSet].
  destruct (SSLCaFileSet c), (SSLClientCertificateKeyFileSet c), (WNumberSet c);
    reflexivity.
Qed.

(** ** The shape of the query suffix *)

Lemma tag_step_extends (entries : list (string * string)) (ruri : string)
    (cnt : Z) :
  exists text, fold_left tag_step entries (ruri, cnt)
               = (ruri +:+ text, cnt + Z.of_nat (length entries)).
Proof.
  revert ruri cnt. induction entries as [|kv entries IH]; intros ruri cnt.
  - exists EmptyString. cbn. now rewrite app_nil_r, Z.add_0_r.
  - cbn [fold_left tag_step].
    destruct (0 <? cnt).
    + destruct (IH ((ruri +:+ kv.1 +:+ ":" +:+ kv.2) +:+ ",") (cnt + 1))
        as (text & ->).
      exists ((kv.1 +:+ ":" +:+ kv.2) +:+ "," +:+ text).
      f_equal; [now rewrite !app_assoc | cbn [length]; lia].
    + destruct (IH (ruri +:+ kv.1 +:+ ":" +:+ kv.2) (cnt + 1)) as (text & ->).
      exists ((kv.1 +:+ ":" +:+ kv.2) +:+ text).
      f_equal; [now rewrite !app_assoc | cbn [length]; lia].
Qed.

Lemma tagsets_loop_extends (sets : list (gmap string string)) :
  forall (ruri : string) (cnt : Z) (o : Oracle),
  exists text cnt' o',
    for_each tagset_step sets (ruri, cnt) o = Ok ((ruri +:+ text, cnt'), o').
Proof.
  induction sets as [|amap sets IH]; intros ruri cnt o; cbn [for_each].
  - exists EmptyString, cnt, o. unfold ret. now rewrite app_nil_r.
  - unfold bind at 1. unfold tagset_step at 1, range_map, bind, ret.
    destruct o as [|choice o].
    + destruct (tag_step_extends (order_of amap 0) ruri cnt) as (t1 & ->).
      destruct (IH (ruri +:+ t1) (cnt + Z.of_nat (length (order_of amap 0))) [])
        as (t2 & cnt' & o' & ->).
      exists (t1 +:+ t2), cnt', o'. now rewrite app_assoc.
    + destruct (tag_step_extends (order_of amap choice) ruri cnt) as (t1 & ->).
      destruct (IH (ruri +:+ t1)
                  (cnt + Z.of_nat (length (order_of amap choice))) o)
        as (t2 & cnt' & o' & ->).
      exists (t1 +:+ t2), cnt', o'. now rewrite app_assoc.
Qed.

(** A text that is empty or starts with ["&"] stays so when more is put
    behind it, and so does the empty text when a parameter is. *)
Lemma suffix_shape_append (ruri more : string) :
  ruri = EmptyString \/ HasPrefix ruri "&" = true ->
  more = EmptyString \/ HasPrefix more "&" = true ->
  ruri +:+ more = EmptyString \/ HasPrefix (ruri +:+ more) "&" = true.
Proof.
  intros [->|Hruri] Hmore; [exact Hmore|]. right.
  destruct ruri as [|a ruri]; [discriminate|exact Hruri].
Qed.

Lemma suffix_shape_if (flag : bool) (ruri more : string) :
  ruri = EmptyString \/ HasPrefix ruri "&" = true ->
  HasPrefix more "&" = true ->
  (if flag then ruri +:+ more else ruri) = EmptyString
  \/ HasPrefix (if flag then ruri +:+ more else ruri) "&" = true.
Proof.
  intros Hruri Hmore. destruct flag; [|exact Hruri].
  apply suffix_shape_append; auto.
Qed.

(** In both modes the suffix that [GetQueryParams] returns is empty or
    starts with ["&"]: it can only follow a first parameter. *)
Theorem query_suffix_shape (c : ConnString) (direct : bool) (o : Oracle) :
  exists params,
    run (GetQueryParams c direct) o = Ok params
    /\ (params = EmptyString \/ HasPrefix params "&" = true).
Proof.
  unfold run, GetQueryParams. cbv zeta.
  set (r4 := if SSLInsecureSet c then _ else _).
  set (r5 := if nonempty (ReadPreference c) && negb direct then _ else _).
  assert (r5 = EmptyString \/ HasPrefix r5 "&" = true) as H5.
  { subst r5 r4. repeat apply suffix_shape_if; auto. }
  clearbody r5. clear r4.
  assert (exists r6 o',
            (if (0 <? Z.of_nat (length (ReadPreferenceTagSets c))) && negb direct
             then
               let* acc := for_each tagset_step (ReadPreferenceTagSets c)
                             (r5 +:+ "&readPreferenceTags=", 0) in
               ret (fst acc)
             else ret r5) o = Ok (r6, o')
            /\ (r6 = EmptyString \/ HasPrefix r6 "&" = true))
    as (r6 & o' & E & H6).
  { destruct (_ && negb direct).
    - unfold bind at 1.
      destruct (tagsets_loop_extends (ReadPreferenceTagSets c)
                  (r5 +:+ "&readPreferenceTags=") 0 o)
        as (text & cnt' & o' & ->).
      unfold ret. cbn [fst]. do 2 eexists. split; [reflexivity|].
      rewrite app_assoc. apply suffix_shape_append; auto.
    - unfold ret. eauto. }
  unfold bind at 1. rewrite E. unfold ret.
  eexists. split; [reflexivity|].
  repeat apply suffix_shape_if; auto.
  destruct (WNumberSet c); [apply suffix_shape_append; auto|].
  apply suffix_shape_if; auto.
Qed.

(** ** The text of the read-preference tags *)

Lemma concat_nil_sep (l : list string) (x : string) :
  String.concat EmptyString (x :: l) = x +:+ String.concat EmptyString l.
Proof. destruct l; cbn; [now rewrite app_nil_r|reflexivity]. Qed.

Lemma tag_step_later (entries : list (string * string)) (ruri : string)
    (cnt : Z) :
  0 < cnt ->
  fold_left tag_step entries (ruri, cnt)
  = (ruri +:+ String.concat EmptyString
                (map (fun kv => kv.1 +:+ ":" +:+ kv.2 +:+ ",") entries),
     cnt + Z.of_nat (length entries)).
Proof.
  revert ruri cnt. induction entries as [|kv entries IH]; intros ruri cnt Hcnt.
  - cbn. now rewrite app_nil_r, Z.add_0_r.
  - cbn [fold_left tag_step map]. apply Z.ltb_lt in Hcnt as Hlt. rewrite Hlt.
    rewrite IH by lia. rewrite concat_nil_sep. f_equal.
    + now rewrite !app_assoc.
    + cbn [length]. lia.
Qed.

Lemma tag_step_written (entries : list (string * string)) (ruri : string) :
  fold_left tag_step entries (ruri, 0)
  = (ruri +:+ tags_written entries, Z.of_nat (length entries)).
Proof.
  destruct entries as [|kv entries].
  - cbn. now rewrite app_nil_r.
  - cbn [fold_left tag_step tags_written]. cbn [Z.ltb Z.compare].
    rewrite tag_step_later by lia. f_equal.
    + now rewrite !app_assoc.
    + cbn [length]. lia.
Qed.

Lemma tags_written_by_loop (sets : list (gmap string string)) (ruri : string)
    (o : Oracle) :
  exists orders acc o',
    for_each tagset_step sets (ruri, 0) o = Ok (acc, o')
    /\ Forall2 (fun amap order => map_to_list amap ≡ₚ order) sets orders
    /\ fst acc = ruri +:+ tags_written (concat orders).
Proof.
  assert (forall done o,
            exists orders acc o',
              for_each tagset_step sets (fold_left tag_step done (ruri, 0)) o
              = Ok (acc, o')
              /\ Forall2 (fun amap order => map_to_list amap ≡ₚ order)
                   sets orders
              /\ acc = fold_left tag_step (done ++ concat orders) (ruri, 0))
    as Hloop.
  { induction sets as [|amap sets IH]; intros done o'; cbn [for_each].
    - exists [], (fold_left tag_step done (ruri, 0)), o'. unfold ret.
      split; [reflexivity|]. split; [constructor|].
      cbn [concat]. now rewrite List.app_nil_r.
    - unfold bind at 1. unfold tagset_step at 1, range_map, bind, ret.
      destruct o' as [|choice o'].
      + rewrite <- fold_left_app.
        destruct (IH (done ++ order_of amap 0) []) as (orders & acc & o2 & E & H2 & ->).
        exists (order_of amap 0 :: orders). do 2 eexists.
        split; [exact E|]. split; [constructor; [apply order_of_Permutation|exact H2]|].
        cbn [concat]. now rewrite List.app_assoc.
      + rewrite <- fold_left_app.
        destruct (IH (done ++ order_of amap choice) o')
          as (orders & acc & o2 & E & H2 & ->).
        exists (order_of amap choice :: orders). do 2 eexists.
        split; [exact E|]. split; [constructor; [apply order_of_Permutation|exact H2]|].
        cbn [concat]. now rewrite List.app_assoc. }
  destruct (Hloop [] o) as (orders & acc & o' & E & H2 & ->).
  exists orders. do 2 eexists. split; [exact E|]. split; [exact H2|].
  cbn [app]. now rewrite tag_step_written.
Qed.

Lemma if_append (flag : bool) (ruri more : string) :
  (if flag then ruri +:+ more else ruri)
  = ruri +:+ (if flag then more else EmptyString).
Proof. destruct flag; [reflexivity|now rewrite app_nil_r]. Qed.

(** ** The separator after the replica-set name in direct mode *)

(** In direct mode, when the connection string is not an SRV one and
    neither an [authSource] nor a user name is set, the ["&"] written after
    the replica-set name is followed by nothing or by the ["&"] of the first
    option: every URI ends in ["&"] or holds ["&&"]. *)
Theorem direct_uri_dangling_separator (shards : list Shard) (c : ConnString)
    (o : Oracle) (uris : list string) (err : option error) :
  HasPrefix (Original c) "mongodb+srv" = false ->
  nonempty (AuthSource c) = false ->
  nonempty (Username c) = false ->
  run (GetAllServerURIs shards c) o = Ok (uris, err) ->
  Forall (fun uri => (exists head, uri = head +:+ "&")
                     \/ Contains uri "&&" = true)
    uris.
Proof.
  intros Hsrv Hauth Huser Hrun.
  destruct (separator_cases shards) as [Hall|Hex];
    [|rewrite GetAllServerURIs_panics in Hrun by assumption; discriminate].
  rewrite GetAllServerURIs_ok in Hrun by assumption. injection Hrun as <- _.
  apply direct_uris_all. intros setName finalHost.
  unfold direct_uri, direct_auth. rewrite Hsrv, Hauth, Huser.
  destruct (query_suffix_shape c true []) as (params & Hparams & Hshape).
  assert (direct_params c = params) as ->.
  { unfold direct_params. now rewrite Hparams. }
  destruct Hshape as [->|Hamp].
  - left. exists ("mongodb://" +:+ credentials c +:+ finalHost
                  +:+ "/?replicaSet=" +:+ setName).
    norm_app. reflexivity.
  - right. apply HasPrefix_inv in Hamp. rewrite Hamp.
    replace ("mongodb://" +:+ credentials c +:+ finalHost +:+ "/?replicaSet="
             +:+ setName +:+ "&" +:+ "" +:+ "&"
             +:+ drop (String.length "&") params)
      with (("mongodb://" +:+ credentials c +:+ finalHost +:+ "/?replicaSet="
             +:+ setName)
            +:+ "&&" +:+ drop (String.length "&") params)
      by (norm_app; reflexivity).
    apply Contains_app_mid.
Qed.

Lemma direct_uri_dangling_separator_witness :
  HasPrefix (Original secondary_config) "mongodb+srv" = false
  /\ nonempty (AuthSource secondary_config) = false
  /\ nonempty (Username secondary_config) = false
  /\ run (GetAllServerURIs [shard_of "rs0" "rs0/h1:27017"] secondary_config) []
     = Ok (["mongodb://h1:27017/?replicaSet=rs0&&tls=true&tlsCAFile=/etc/ssl/ca.pem&w=1&retryWrites=true"],
           None)
  /\ Forall (fun uri => (exists head, uri = head +:+ "&")
                        \/ Contains uri "&&" = true)
       ["mongodb://h1:27017/?replicaSet=rs0&&tls=true&tlsCAFile=/etc/ssl/ca.pem&w=1&retryWrites=true"].
Proof.
  assert (run (GetAllServerURIs [shard_of "rs0" "rs0/h1:27017"] secondary_config)
            []
          = Ok (["mongodb://h1:27017/?replicaSet=rs0&&tls=true&tlsCAFile=/etc/ssl/ca.pem&w=1&retryWrites=true"],
                None)) as Hrun
    by (vm_compute; reflexivity).
  split; [reflexivity|]. split; [reflexivity|]. split; [reflexivity|].
  split; [exact Hrun|].
  exact (direct_uri_dangling_separator [shard_of "rs0" "rs0/h1:27017"]
           secondary_config [] _ _ eq_refl eq_refl eq_refl Hrun).
Defined.

(** ** The order of the shards *)

Lemma not_less_le (a b : string) :
  String.ltb b a = false <-> String.le a b.
Proof.
  unfold String.le, String.leb, String.ltb.
  rewrite (String.compare_antisym a b).
  destruct (String.compare b a); cbn; intuition (auto; discriminate).
Qed.

(** The order [GetShards] sorts by. *)
Lemma by_ID_le (a b : Shard) :
  in_order (fun a b => String.ltb (ID a) (ID b)) a b <-> String.le (ID a) (ID b).
Proof. unfold in_order. apply not_less_le. Qed.

#[local] Instance by_ID_total :
  Total (in_order (fun a b : Shard => String.ltb (ID a) (ID b))).
Proof.
  intros a b. rewrite !by_ID_le. apply (total String.le).
Qed.

#[local] Instance by_ID_transitive :
  Transitive (in_order (fun a b : Shard => String.ltb (ID a) (ID b))).
Proof.
  intros a b c. rewrite !by_ID_le. apply (transitivity (R := String.le)).
Qed.

Lemma same_ID_same_shard (shards : list Shard) (a b : Shard) :
  NoDup (map ID shards) -> In a shards -> In b shards -> ID a = ID b -> a = b.
Proof.
  induction shards as [|x shards IH]; intros Hnd Ha Hb E; [contradiction|].
  cbn [map] in Hnd. apply NoDup_cons in Hnd as [Hx Hnd].
  destruct Ha as [->|Ha], Hb as [->|Hb]; auto.
  - exfalso. apply Hx. rewrite E. apply list_elem_of_In. now apply in_map.
  - exfalso. apply Hx. rewrite <- E. apply list_elem_of_In. now apply in_map.
Qed.

Lemma sort_Slice_sorted (shards : list Shard) (o : Oracle) :
  exists sorted o',
    sort_Slice (fun a b => String.ltb (ID a) (ID b)) shards o = Ok (sorted, o')
    /\ shards ≡ₚ sorted
    /\ Sorted (in_order (fun a b => String.ltb (ID a) (ID b))) sorted.
Proof.
  unfold sort_Slice.
  set (R := in_order (fun a b => String.ltb (ID a) (ID b))).
  assert (shards ≡ₚ merge_sort R shards /\ Sorted R (merge_sort R shards))
    as Hstable.
  { split; [symmetry; apply merge_sort_Permutation|].
    apply (Sorted_merge_sort R). }
  destruct o as [|choice o]; [eauto|].
  destruct (filter _ (permutations shards) !! choice) as [l|] eqn:E; cbn;
    [|eauto].
  apply list_elem_of_lookup_2, list_elem_of_filter in E as [Hsorted Hperm].
  apply permutations_Permutation in Hperm. eauto.
Qed.

(** From a decoded reply [GetShards] returns a [nil] error and the shards
    of the reply in ascending order of their ids. When no two shards have
    the same id, that result does not depend on how [sort.Slice] orders
    equal elements. *)
Theorem GetShards_ascending (shards : list Shard) (o : Oracle) :
  exists sorted,
    run (GetShards (inl shards)) o = Ok (sorted, None)
    /\ shards ≡ₚ sorted
    /\ StronglySorted (fun a b => String.le (ID a) (ID b)) sorted
    /\ (NoDup (map ID shards) ->
        forall o', run (GetShards (inl shards)) o' = Ok (sorted, None)).
Proof.
  unfold run, GetShards, bind, ret.
  destruct (sort_Slice_sorted shards o) as (sorted & o1 & -> & Hperm & Hsorted).
  exists sorted. split; [reflexivity|]. split; [exact Hperm|]. split.
  - apply Sorted_StronglySorted in Hsorted; [|apply _].
    clear Hperm. induction Hsorted as [|a l _ IH Hall]; constructor;
      [exact IH|].
    eapply List.Forall_impl; [|exact Hall]. intros b. apply by_ID_le.
  - intros Hnd o'.
    destruct (sort_Slice_sorted shards o')
      as (sorted' & o2 & -> & Hperm' & Hsorted').
    do 3 f_equal.
    apply (Sorted_unique_strong
             (in_order (fun a b => String.ltb (ID a) (ID b))));
      [|assumption..|now rewrite <- Hperm', <- Hperm].
    intros a b Ha Hb Hab Hba. apply by_ID_le in Hab, Hba.
    apply (same_ID_same_shard shards); [assumption| | |].
    + apply list_elem_of_In. now rewrite Hperm'.
    + apply list_elem_of_In. now rewrite Hperm.
    + now apply (anti_symm String.le).
Qed.

(** When the reply cannot be run or decoded, [GetShards] returns no shards
    and the error it got; it sorts nothing, whatever the oracle. *)
Lemma GetShards_error (err : error) (o : Oracle) :
  run (GetShards (inr err)) o = Ok ([], Some err).
Proof. reflexivity. Qed.

(** ** Numbers with thousands separators *)

Example formatNumber_thousands : formatNumber 1234567 = "1,234,567".
Proof. reflexivity. Qed.

Example formatNumber_negative : formatNumber (-123456) = "-,123,456".
Proof. reflexivity. Qed.

Lemma len_cons (c : ascii) (s : string) : len (String c s) = len s + 1.
Proof. unfold len. cbn [String.length]. lia. Qed.

Lemma number_loop_grouped (str : string) (rest : string) :
  forall (i : Z) (result : string),
    0 < i -> len rest = len str - i ->
    number_loop str rest i result = result +:+ grouped rest.
Proof.
  induction rest as [|c rest IH]; intros i result Hi Hlen.
  - cbn. now rewrite app_nil_r.
  - cbn [number_loop grouped]. apply Z.ltb_lt in Hi as Hlt. rewrite Hlt.
    cbn [andb]. rewrite <- Hlen. rewrite len_cons in Hlen.
    rewrite IH by lia.
    destruct (Z.rem (len (String c rest)) 3 =? 0); now rewrite !app_assoc.
Qed.

Lemma pretty_N_go_bytes (x : N) (s : string) (c : ascii) :
  mentions "0123456789" c = false -> mentions s c = false ->
  mentions (pretty_N_go x s) c = false.
Proof.
  intros Hc. revert s. induction (N.lt_wf_0 x) as [x _ IH]; intros s Hs.
  destruct (N.eq_dec x 0%N) as [->|Hx].
  - now rewrite pretty_N_go_0.
  - rewrite pretty_N_go_step by lia. apply IH.
    + apply N.div_lt; lia.
    + cbn [mentions]. rewrite Hs, orb_false_r.
      cbn [mentions] in Hc. rewrite !orb_false_r in Hc.
      repeat (apply orb_false_elim in Hc as [? Hc]).
      unfold pretty_N_char. repeat case_match; assumption.
Qed.

Lemma pretty_Z_no_comma (n : Z) : mentions (pretty n) "," = false.
Proof.
  destruct n as [|p|p]; [reflexivity| |].
  - unfold pretty, pretty_Z, pretty, pretty_positive, pretty, pretty_N.
    destruct (decide (N.pos p = 0%N)); [reflexivity|].
    now apply pretty_N_go_bytes.
  - unfold pretty, pretty_Z. rewrite mentions_app.
    unfold pretty, pretty_positive, pretty, pretty_N.
    destruct (decide (N.pos p = 0%N)); [reflexivity|].
    now rewrite pretty_N_go_bytes.
Qed.

Lemma pretty_N_go_longer (x : N) (s : string) :
  (0 < x)%N -> len s < len (pretty_N_go x s).
Proof.
  revert s. induction (N.lt_wf_0 x) as [x _ IH]; intros s Hx.
  rewrite pretty_N_go_step by lia.
  destruct (N.eq_dec (x / 10)%N 0%N) as [E|E].
  - rewrite E, pretty_N_go_0, len_cons. lia.
  - etransitivity; [|apply IH; [apply N.div_lt; lia|now apply N.neq_0_lt_0]].
    rewrite len_cons. lia.
Qed.

Lemma pretty_Z_nonempty (n : Z) : 1 <= len (pretty n).
Proof.
  destruct n as [|p|p]; [vm_compute; discriminate| |].
  - unfold pretty, pretty_Z, pretty, pretty_positive, pretty, pretty_N.
    destruct (decide (N.pos p = 0%N)); [discriminate|].
    pose proof (pretty_N_go_longer (N.pos p) "" ltac:(lia)) as H.
    change (len "") with 0 in H. lia.
  - unfold pretty, pretty_Z. unfold len. rewrite length_app. cbn. lia.
Qed.

Lemma Split_no_sep (s : string) (sep : ascii) :
  mentions s sep = false -> Split s sep = [s].
Proof.
  induction s as [|a s IH]; intros H; [reflexivity|].
  cbn [mentions] in H. apply orb_false_elim in H as [Ha Hs].
  cbn [Split]. rewrite Ha, IH by assumption. reflexivity.
Qed.

Lemma Split_grouped (rest : string) :
  mentions rest "," = false ->
  exists first groups,
    Split (grouped rest) "," = first :: groups
    /\ len first = Z.rem (len rest) 3
    /\ Forall (fun group => len group = 3) groups
    /\ first +:+ String.concat EmptyString groups = rest.
Proof.
  induction rest as [|c rest IH]; intros H.
  - exists EmptyString, []. repeat split; constructor.
  - cbn [mentions] in H. apply orb_false_elim in H as [Hc Hrest].
    destruct (IH Hrest) as (first & groups & Hsplit & Hfirst & Hgroups & Hcat).
    assert (0 <= len rest) as Hnn by (unfold len; lia).
    pose proof (len_cons c rest) as Hlen.
    assert (len (String c first) = len first + 1) as Hlen' by apply len_cons.
    rewrite Z.rem_mod_nonneg in Hfirst by lia.
    cbn [grouped].
    destruct (Z.eqb_spec (Z.rem (len (String c rest)) 3) 0) as [Hrem|Hrem];
      rewrite Z.rem_mod_nonneg in Hrem |- * by lia.
    + exists EmptyString, (String c first :: groups).
      cbn [Split]. rewrite Ascii.eqb_refl. rewrite Hc, Hsplit.
      repeat split.
      * change (len "") with 0. lia.
      * constructor; [|exact Hgroups].
        rewrite Hlen', Hfirst. rewrite Hlen in Hrem.
        revert Hrem. generalize (len rest). intros z Hz.
        pose proof (Z.mod_pos_bound z 3 ltac:(lia)).
        pose proof (Z.mod_pos_bound (z + 1) 3 ltac:(lia)).
        pose proof (Z.div_mod z 3 ltac:(lia)).
        pose proof (Z.div_mod (z + 1) 3 ltac:(lia)). lia.
      * rewrite concat_nil_sep. cbn. now rewrite <- Hcat.
    + exists (String c first), groups.
      cbn [Split]. rewrite Hc, Hsplit.
      repeat split; [|exact Hgroups|cbn; now rewrite <- Hcat].
      rewrite Hlen', Hfirst, Hlen.
      rewrite Hlen in Hrem.
      revert Hrem. generalize (len rest). intros z Hz.
      pose proof (Z.mod_pos_bound z 3 ltac:(lia)).
      pose proof (Z.mod_pos_bound (z + 1) 3 ltac:(lia)).
      pose proof (Z.div_mod z 3 ltac:(lia)).
      pose proof (Z.div_mod (z + 1) 3 ltac:(lia)). lia.
Qed.

(** [formatNumber] cuts the decimal numeral of [n] at commas into a first
    group of one to three bytes and groups of three bytes, and changes
    nothing else: the groups put together are the numeral. The sign of a
    negative number counts as a byte of the numeral, so the first group of
    [-123456] is the sign alone. *)
Theorem formatNumber_groups (n : Z) :
  exists first groups,
    Split (formatNumber n) "," = first :: groups
    /\ len first = Z.rem (len (pretty n) - 1) 3 + 1
    /\ Forall (fun group => len group = 3) groups
    /\ first +:+ String.concat EmptyString groups = pretty n.
Proof.
  pose proof (pretty_Z_nonempty n) as Hne.
  pose proof (pretty_Z_no_comma n) as Hcomma.
  unfold formatNumber.
  destruct (Z.eqb_spec n 0) as [->|Hn].
  { exists "0", []. repeat split; constructor. }
  destruct (Z.leb_spec (len (pretty n)) 3) as [Hshort|Hlong].
  - exists (pretty n), []. rewrite Split_no_sep by assumption.
    repeat split; [|constructor|apply app_nil_r].
    rewrite Z.rem_small; lia.
  - destruct (pretty n) as [|c rest] eqn:E;
      [change (len "") with 0 in Hne; lia|].
    cbn [number_loop]. cbn [Z.ltb Z.compare andb String.append].
    rewrite len_cons in Hne, Hlong |- *.
    rewrite number_loop_grouped by (rewrite ?len_cons; lia).
    cbn [mentions] in Hcomma. apply orb_false_elim in Hcomma as [Hc Hrest].
    destruct (Split_grouped rest Hrest)
      as (first & groups & Hsplit & Hfirst & Hgroups & Hcat).
    exists (String c first), groups.
    cbn [String.append Split]. rewrite Hc, Hsplit.
    repeat split; [|exact Hgroups|cbn; now rewrite <- Hcat].
    rewrite len_cons, Hfirst. f_equal. f_equal. lia.
Qed.

Example GetShards_example :
  run (GetShards (inl [shard_of "shard02" "shard02/h3:27018";
                       shard_of "shard01" "shard01/h1:27018"])) [5%nat]
  = Ok ([shard_of "shard01" "shard01/h1:27018";
         shard_of "shard02" "shard02/h3:27018"], None).
Proof. vm_compute. reflexivity. Qed.

(** ** Discovery mode without an [authSource] *)

(** In discovery mode, when the connection string is not an SRV one and no
    [authSource] is set, none is written, with or without a user name: the
    URI of a shard is the scheme, the credentials, the member list as the
    [Host] field has it, the database, the replica-set name and the suffix of
    [GetQueryParams], and nothing else. *)
Theorem discovery_without_authSource (shards : list Shard) (c : ConnString)
    (o : Oracle) (uris : list string) (err : option error) :
  HasPrefix (Original c) "mongodb+srv" = false ->
  nonempty (AuthSource c) = false ->
  run (GetAllShardURIs shards c) o = Ok (uris, err) ->
  Forall2 (fun shard uri =>
             exists params o',
               run (GetQueryParams c false) o' = Ok params
               /\ uri = "mongodb://"
                        +:+ (if nonempty (Username c)
                             then Username c +:+ ":"
                                  +:+ QueryEscape (Password c) +:+ "@"
                             else EmptyString)
                        +:+ allHosts_of shard +:+ "/" +:+ Database c
                        +:+ "?replicaSet=" +:+ setName_of shard +:+ params)
    shards uris.
Proof.
  intros Hsrv Hauth Hrun.
  destruct (separator_cases shards) as [Hall|Hex];
    [|rewrite GetAllShardURIs_panics in Hrun by assumption; discriminate].
  destruct (GetAllShardURIs_ok shards c o Hall) as (uris' & Hrun' & Huris).
  rewrite Hrun' in Hrun. injection Hrun as <- _.
  eapply Forall2_impl; [exact Huris|].
  intros shard uri (params & [o' Hparams] & ->). cbv beta.
  exists params, o'. split; [exact Hparams|].
  unfold discovery_uri, discovery_head, discovery_auth, credentials.
  rewrite Hsrv, Hauth. cbn [negb andb].
  destruct (nonempty (Username c)); norm_app; reflexivity.
Qed.

Lemma discovery_without_authSource_witness :
  HasPrefix (Original example_config) "mongodb+srv" = false
  /\ nonempty (AuthSource example_config) = false
  /\ run (GetAllShardURIs [example_shard] example_config) []
     = Ok (["mongodb://h1:27018,h2:27018/admin?replicaSet=shard01"], None)
  /\ Forall2 (fun shard uri =>
                exists params o',
                  run (GetQueryParams example_config false) o' = Ok params
                  /\ uri = "mongodb://"
                           +:+ (if nonempty (Username example_config)
                                then Username example_config +:+ ":"
                                     +:+ QueryEscape (Password example_config)
                                     +:+ "@"
                                else EmptyString)
                           +:+ allHosts_of shard +:+ "/"
                           +:+ Database example_config
                           +:+ "?replicaSet=" +:+ setName_of shard +:+ params)
       [example_shard] ["mongodb://h1:27018,h2:27018/admin?replicaSet=shard01"].
Proof.
  assert (run (GetAllShardURIs [example_shard] example_config) []
          = Ok (["mongodb://h1:27018,h2:27018/admin?replicaSet=shard01"], None))
    as Hrun by reflexivity.
  split; [reflexivity|]. split; [reflexivity|]. split; [exact Hrun|].
  exact (discovery_without_authSource [example_shard] example_config [] _ _
           eq_refl eq_refl Hrun).
Defined.

(** * The reconciler and the query suffix in closed form

    The statements of C3, C6 and C8 rest on the facts about [Split], the tag
    loop and decimal numerals established above. *)

(** ** C3: the members that are kept as reported *)

Lemma app_cancel_r (a b p : string) : a +:+ p = b +:+ p -> a = b.
Proof.
  intros E.
  assert (String.length a = String.length b) as Hlen.
  { apply (f_equal String.length) in E. rewrite !length_app in E. lia. }
  rewrite <- (take_app_length a p), E, Hlen. apply take_app_length.
Qed.

(** The fallback scan stops at the first seed host whose identifier is the
    one looked for. *)
Lemma scan_seeds_first (seeds : list string) (shardID : string) :
  scan_seeds (map host_name seeds) shardID
  = Ok (option_map host_name
          (List.find (fun seed => String.eqb (seed_identifier seed) shardID)
             seeds)).
Proof.
  induction seeds as [|seed seeds IH];
    cbn [map scan_seeds List.find option_map]; [reflexivity|].
  unfold seed_identifier at 1.
  destruct (seed_shardID_ok (host_name seed)) as [id ->]. unfold bindR at 1.
  destruct (String.eqb id shardID); [reflexivity|exact IH].
Qed.

(** What the reconciler returns when the map is empty: the name of the seed
    host at which the scan stops or, when it finds none, a made-up name for a
    name that awaits the marker and else the name as reported; then the
    port. *)
Lemma resolve_host_unmarked (seeds : list string) (host : string) :
  exists name,
    resolve_host ∅ (map host_name seeds) host = Ok (name +:+ host_port host)
    /\ match matching_seed seeds host with
       | Some seed => name = host_name seed
       | None => if awaits_marker (host_name host)
                 then Contains name "-pri" = true
                 else name = host_name host
       end.
Proof.
  unfold resolve_host.
  assert ((if 0 <? Index host ":"
           then let? hostname := slice_to host (Index host ":") in
                let? port := slice_from host (Index host ":") in
                Ok (hostname, port)
           else Ok (host, EmptyString))
          = Ok (host_name host, host_port host)) as ->.
  { unfold host_name, host_port.
    destruct (Z.ltb_spec 0 (Index host ":")); [|reflexivity].
    rewrite slice_to_Index, slice_from_Index0 by lia. reflexivity. }
  unfold bindR at 1.
  assert (forall name, (if nonempty (host_port host)
                        then name +:+ host_port host else name)
                       = name +:+ host_port host) as Hport.
  { intros name. destruct (host_port host);
      [now rewrite app_nil_r|reflexivity]. }
  unfold matching_seed, member_identifier, first_label.
  pose proof (Split_nonempty (host_name host) ".") as Hsplit.
  destruct (Split (host_name host) ".") as [|firstPart rest]; [contradiction|].
  cbv beta iota.
  destruct (member_shardID_ok firstPart) as [id ->]. unfold bindR at 2.
  rewrite lookup_empty, scan_seeds_first.
  destruct (List.find (fun seed => String.eqb (seed_identifier seed) id) seeds)
    as [seed|] eqn:Hfind.
  - assert ((0 <? Z.of_nat (size (∅ : gmap string string)))
            || (0 <? Z.of_nat (length (map host_name seeds))) = true) as ->.
    { destruct seeds; [discriminate|]. apply orb_true_r. }
    cbn [option_map]. unfold bindR. cbn [negb andb]. rewrite Hport.
    exists (host_name seed). split; reflexivity.
  - assert ((if (0 <? Z.of_nat (size (∅ : gmap string string)))
                || (0 <? Z.of_nat (length (map host_name seeds)))
             then let? found := Ok (option_map host_name None) in
                  match found with
                  | Some origHost => Ok (origHost, true)
                  | None => Ok (host_name host, false)
                  end
             else Ok (host_name host, false))
            = Ok (host_name host, false)) as ->.
    { destruct (_ || _); reflexivity. }
    unfold bindR at 1. cbn [negb andb]. unfold awaits_marker.
    destruct (Contains (host_name host) "-shard-"
              && Contains (host_name host) ".gcp.mongodb.net"); cbn [andb].
    + destruct (Contains (host_name host) "-pri"); cbn [negb].
      * unfold bindR. rewrite Hport. exists (host_name host).
        split; reflexivity.
      * destruct (made_up_name_has_marker (host_name host))
          as (name & -> & Hmarker).
        unfold bindR. rewrite Hport. exists name. split; [reflexivity|].
        exact Hmarker.
    + unfold bindR. rewrite Hport. exists (host_name host).
      split; reflexivity.
Qed.

(** Without a marker among the seed hosts, the reconciler returns a member
    as it was reported exactly when [kept_as_reported] says so. *)
Lemma resolve_host_kept (seeds : list string) (host : string) :
  Forall (fun seed => Contains seed "-pri" = false) seeds ->
  resolve_host (seed_tables seeds).1 (seed_tables seeds).2 host = Ok host
  <-> kept_as_reported seeds host = true.
Proof.
  intros Hseeds.
  rewrite seed_tables_unmarked, seed_tables_list;
    [|eapply List.Forall_impl; [|exact Hseeds];
      intros seed; apply host_name_unmarked].
  destruct (resolve_host_unmarked seeds host) as (name & -> & Hname).
  unfold kept_as_reported. split.
  - intros [= E].
    assert (name = host_name host) as ->.
    { apply (app_cancel_r _ _ (host_port host)).
      now rewrite host_name_port. }
    destruct (matching_seed seeds host) as [seed|].
    + rewrite <- Hname. apply String.eqb_refl.
    + destruct (awaits_marker (host_name host)) eqn:Hshape; [|reflexivity].
      unfold awaits_marker in Hshape. rewrite Hname in Hshape.
      now rewrite andb_false_r in Hshape.
  - intros Hkept. f_equal. rewrite <- (host_name_port host) at 2. f_equal.
    destruct (matching_seed seeds host) as [seed|].
    + apply String.eqb_eq in Hkept. congruence.
    + destruct (awaits_marker (host_name host)); [discriminate|exact Hname].
Qed.

Lemma app_cancel_l (p a b : string) : p +:+ a = p +:+ b -> a = b.
Proof.
  induction p as [|x p IH]; intros E; [exact E|].
  injection E as E. now apply IH.
Qed.

(** The URI of a member tells the host it addresses. *)
Lemma direct_uri_host (c : ConnString) (isSRV : bool)
    (setName host host' : string) :
  direct_uri c isSRV setName host = direct_uri c isSRV setName host' ->
  host = host'.
Proof.
  unfold direct_uri. intros E.
  apply app_cancel_l, app_cancel_l in E. now apply app_cancel_r in E.
Qed.

Lemma concat_map_inj {A B : Type} (f g : A -> list B) (l : list A) :
  (forall x, length (f x) = length (g x)) ->
  concat (map f l) = concat (map g l) ->
  forall x, In x l -> f x = g x.
Proof.
  intros Hlen. induction l as [|a l IH]; intros E x Hx; [destruct Hx|].
  cbn [map concat] in E. apply app_inj_1 in E as [Ea El]; [|apply Hlen].
  destruct Hx as [<-|Hx]; [exact Ea|now apply IH].
Qed.

(** C3, amended: let no seed host contain the [-pri] marker (in particular,
    let there be no seed host), and let every [Host] field have its ["/"].
    Then the reconciliation is the identity on a member exactly in these
    cases: the first seed host that shares the derived shard identifier of
    the member has the name of the member, the ports aside; or no seed host
    shares the identifier, and the name of the member does not await a marker
    (it does not contain [-shard-] and [.gcp.mongodb.net] without [-pri]).
    [GetAllServerURIs] returns, for each shard in order and each of its
    members in order, the URI addressing exactly the member as the [Host]
    field reports it, port included, exactly when all members are such. *)
Theorem reconciliation_identity (shards : list Shard) (c : ConnString)
    (o : Oracle) :
  Forall (fun seed => Contains seed "-pri" = false) (Hosts c) ->
  Forall has_separator shards ->
  (forall host,
     resolve_host (seed_tables (Hosts c)).1 (seed_tables (Hosts c)).2 host
     = Ok host
     <-> kept_as_reported (Hosts c) host = true) /\
  (run (GetAllServerURIs shards c) o
   = Ok (concat
           (map (fun shard =>
                   map (direct_uri c (HasPrefix (Original c) "mongodb+srv")
                          (setName_of shard))
                       (members_of shard))
                shards),
         None)
   <-> forall shard host,
         In shard shards -> In host (members_of shard) ->
         kept_as_reported (Hosts c) host = true).
Proof.
  intros Hseeds Hall. split; [intros host; now apply resolve_host_kept|].
  rewrite GetAllServerURIs_ok by assumption. split.
  - intros [= E] shard host Hshard Hhost.
    apply resolve_host_kept; [exact Hseeds|].
    apply (concat_map_inj (direct_uris c)) with (x := shard) in E;
      [|intros x; unfold direct_uris; now rewrite !length_map|exact Hshard].
    unfold direct_uris in E.
    pose proof (proj1 List.map_ext_in_iff E host Hhost) as Ehost.
    apply direct_uri_host in Ehost. cbv beta in Ehost.
    destruct (seed_tables (Hosts c)) as [m l].
    rewrite resolve_host_resolved. now f_equal.
  - intros Hkept. do 3 f_equal.
    apply map_ext_in. intros shard Hshard. unfold direct_uris.
    apply map_ext_in. intros host Hhost. f_equal.
    unfold resolved.
    now rewrite (proj2 (resolve_host_kept (Hosts c) host Hseeds)
                   (Hkept shard host Hshard Hhost)).
Qed.

Lemma reconciliation_identity_witness :
  Forall (fun seed => Contains seed "-pri" = false) (Hosts localhost_config)
  /\ Forall has_separator [shard_of "rs0" "rs0/localhost:27018,localhost:27019"]
  /\ matching_seed (Hosts localhost_config) "localhost:27018"
     = Some "localhost:27017"
  /\ run (GetAllServerURIs [shard_of "rs0" "rs0/localhost:27018,localhost:27019"]
            localhost_config) []
     = Ok (["mongodb://localhost:27018/?replicaSet=rs0&";
            "mongodb://localhost:27019/?replicaSet=rs0&"], None).
Proof.
  assert (Forall (fun seed => Contains seed "-pri" = false)
            (Hosts localhost_config)) as Hseeds
    by (repeat constructor).
  assert (Forall has_separator
            [shard_of "rs0" "rs0/localhost:27018,localhost:27019"]) as Hsep
    by (repeat constructor).
  split; [exact Hseeds|]. split; [exact Hsep|]. split; [reflexivity|].
  refine (proj2 (proj2 (reconciliation_identity
                          [shard_of "rs0" "rs0/localhost:27018,localhost:27019"]
                          localhost_config [] Hseeds Hsep)) _).
  intros shard host [<-|[]] Hhost.
  vm_compute in Hhost.
  destruct Hhost as [<-|[<-|[]]]; reflexivity.
Defined.

(** The condition at work: a member that is given a made-up name and a
    member that takes the name of a seed host are not kept; a member with the
    name of the seed host is, and so is a member that no seed host
    matches. *)
Lemma kept_as_reported_examples :
  kept_as_reported [] "prod-x-shard-00-00.abc.gcp.mongodb.net:27017" = false
  /\ kept_as_reported (Hosts unmarked_seed_config) "h1.internal:27018" = false
  /\ kept_as_reported (Hosts localhost_config) "localhost:27018" = true
  /\ kept_as_reported (Hosts mongos_config) "h1:27018" = true.
Proof. repeat split; vm_compute; reflexivity. Qed.

(** ** C6: the suffix, parameter after parameter *)

Lemma parameter_if_append (flag : bool) (ruri parameter : string) :
  (if flag then ruri +:+ parameter else ruri)
  = ruri +:+ parameter_if flag parameter.
Proof. apply if_append. Qed.

(** The suffix is the text of [query_suffix], for the orders in which the
    tag sets were visited. *)
Lemma GetQueryParams_written (c : ConnString) (direct : bool) (o : Oracle) :
  exists orders o',
    GetQueryParams c direct o = Ok (query_suffix c direct orders, o')
    /\ Forall2 visits (ReadPreferenceTagSets c) orders.
Proof.
  unfold GetQueryParams. cbv zeta.
  set (r5 := if nonempty (ReadPreference c) && negb direct then _ else _).
  assert (r5 = before_tags c direct) as ->.
  { subst r5. unfold before_tags. rewrite !parameter_if_append.
    now rewrite !app_assoc. }
  assert (forall ruri,
            (if RetryWritesSet c
             then (if RetryReadsSet c
                   then (if WNumberSet c
                         then ruri +:+ "&w=" +:+ pretty (WNumber c)
                         else if nonempty (WString c)
                              then ruri +:+ "&w=" +:+ WString c
                              else ruri) +:+ "&retryReads=true"
                   else if WNumberSet c
                        then ruri +:+ "&w=" +:+ pretty (WNumber c)
                        else if nonempty (WString c)
                             then ruri +:+ "&w=" +:+ WString c
                             else ruri) +:+ "&retryWrites=true"
             else if RetryReadsSet c
                  then (if WNumberSet c
                        then ruri +:+ "&w=" +:+ pretty (WNumber c)
                        else if nonempty (WString c)
                             then ruri +:+ "&w=" +:+ WString c
                             else ruri) +:+ "&retryReads=true"
                  else if WNumberSet c
                       then ruri +:+ "&w=" +:+ pretty (WNumber c)
                       else if nonempty (WString c)
                            then ruri +:+ "&w=" +:+ WString c
                            else ruri)
            = ruri +:+ after_tags c) as Hafter.
  { intros ruri. rewrite !parameter_if_append. unfold after_tags.
    assert ((if WNumberSet c then ruri +:+ "&w=" +:+ pretty (WNumber c)
             else ruri +:+ parameter_if (nonempty (WString c))
                             ("&w=" +:+ WString c))
            = ruri +:+ write_concern c) as ->.
    { unfold write_concern. now destruct (WNumberSet c). }
    now rewrite !app_assoc. }
  unfold query_suffix.
  destruct ((0 <? Z.of_nat (length (ReadPreferenceTagSets c))) && negb direct).
  - unfold bind at 1. unfold bind at 1.
    destruct (tags_written_by_loop (ReadPreferenceTagSets c)
                (before_tags c direct +:+ "&readPreferenceTags=") o)
      as (orders & [text cnt] & o' & -> & Horders & Htext).
    cbn [fst] in Htext. subst text. unfold ret. cbn [fst].
    exists orders, o'. split; [|exact Horders].
    rewrite Hafter. unfold parameter_if. now rewrite !app_assoc.
  - unfold bind, ret. exists (map map_to_list (ReadPreferenceTagSets c)), o.
    split.
    + rewrite Hafter. reflexivity.
    + unfold visits. induction (ReadPreferenceTagSets c); constructor; auto.
Qed.

(** A tag set with at most one key is visited in one order only. *)
Lemma visits_small (sets : list (gmap string string))
    (orders : list (list (string * string))) :
  Forall (fun amap => (size amap <= 1)%nat) sets ->
  Forall2 visits sets orders -> orders = map map_to_list sets.
Proof.
  intros Hsmall Horders. revert Hsmall.
  induction Horders as [|amap order sets orders Hperm _ IH]; intros Hsmall;
    [reflexivity|].
  inversion Hsmall as [|? ? Hsize Hrest]; subst. cbn [map]. f_equal; [|auto].
  unfold visits in Hperm. rewrite <- length_map_to_list in Hsize.
  destruct (map_to_list amap) as [|kv [|kv' more]]; simpl in Hsize; [..|lia].
  - symmetry. now apply Permutation_nil_l.
  - symmetry. now apply Permutation_singleton_l.
Qed.

(** C6, amended: [GetQueryParams] always returns, and the suffix is always
    its parameters in the same order: [tls], [tlsCAFile],
    [tlsCertificateKeyFile], [tlsInsecure], [readPreference],
    [readPreferenceTags], the write concern, [retryReads], [retryWrites].
    Two evaluations on the same configuration and mode can differ in one
    thing only: the order in which the entries of each tag set are written
    inside [readPreferenceTags], which is the order of the [range] over a Go
    map. They return the same suffix in direct mode, and when no tag set
    holds more than one key. *)
Theorem GetQueryParams_deterministic (c : ConnString) (direct : bool)
    (o1 o2 : Oracle) :
  exists orders1 orders2,
    run (GetQueryParams c direct) o1 = Ok (query_suffix c direct orders1)
    /\ run (GetQueryParams c direct) o2 = Ok (query_suffix c direct orders2)
    /\ Forall2 visits (ReadPreferenceTagSets c) orders1
    /\ Forall2 visits (ReadPreferenceTagSets c) orders2
    /\ (direct = true
        \/ Forall (fun amap => (size amap <= 1)%nat) (ReadPreferenceTagSets c) ->
        query_suffix c direct orders1 = query_suffix c direct orders2).
Proof.
  destruct (GetQueryParams_written c direct o1) as (orders1 & o1' & E1 & H1).
  destruct (GetQueryParams_written c direct o2) as (orders2 & o2' & E2 & H2).
  exists orders1, orders2. unfold run. rewrite E1, E2.
  repeat split; try assumption.
  intros [->|Hsmall].
  - unfold query_suffix. cbn [negb]. now rewrite !andb_false_r.
  - now rewrite (visits_small _ _ Hsmall H1), (visits_small _ _ Hsmall H2).
Qed.

Lemma GetQueryParams_deterministic_witness :
  Forall (fun amap => (size amap <= 1)%nat)
    (ReadPreferenceTagSets secondary_config) /\
  exists params,
    run (GetQueryParams secondary_config false) [0%nat] = Ok params /\
    run (GetQueryParams secondary_config false) [1%nat] = Ok params.
Proof.
  assert (Forall (fun amap => (size amap <= 1)%nat)
            (ReadPreferenceTagSets secondary_config)) as Hsmall.
  { repeat constructor. }
  split; [exact Hsmall|].
  destruct (GetQueryParams_deterministic secondary_config false
              [0%nat] [1%nat])
    as (orders1 & orders2 & E1 & E2 & _ & _ & Hsame).
  exists (query_suffix secondary_config false orders1).
  split; [exact E1|]. rewrite (Hsame (or_intror Hsmall)). exact E2.
Defined.

(** ** C8: the read preference in direct mode *)

(** A CA file path that holds the text of a parameter brings a
    [readPreference] parameter into the suffix of direct mode. *)
Lemma read_preference_through_ca_file :
  SSLCaFile ca_file_config = "/ca.pem&readPreference=secondary"
  /\ run (GetQueryParams ca_file_config true) []
     = Ok "&tls=true&tlsCAFile=/ca.pem&readPreference=secondary"
  /\ Contains "&tls=true&tlsCAFile=/ca.pem&readPreference=secondary"
       "&readPreference=" = true.
Proof. repeat split; vm_compute; reflexivity. Qed.

Lemma Contains_empty (b : ascii) (k : string) :
  Contains EmptyString (String b k) = false.
Proof. reflexivity. Qed.

Lemma HasPrefix_across_eq (p r k : string) (c : ascii) :
  mentions k c = false ->
  HasPrefix (p +:+ String c r) k = HasPrefix p k.
Proof.
  intros Hc. destruct (HasPrefix (p +:+ String c r) k) eqn:E.
  - symmetry. eapply HasPrefix_across; eauto.
  - destruct (HasPrefix p k) eqn:E2; [|reflexivity].
    apply HasPrefix_inv in E2. rewrite E2, app_assoc, HasPrefix_app in E.
    discriminate.
Qed.

(** A pattern that has the separator at most as its first byte occurs in a
    text that continues with the separator only if it occurs before it, or
    from it on. *)
Lemma Contains_split (p r k : string) (b c : ascii) :
  mentions k c = false ->
  Contains (p +:+ String c r) (String b k)
  = Contains p (String b k) || Contains (String c r) (String b k).
Proof.
  intros Hc. induction p as [|a p IH]; [reflexivity|].
  change (String a p +:+ String c r) with (String a (p +:+ String c r)).
  rewrite (Contains_cons a (p +:+ String c r)), (Contains_cons a p), IH.
  rewrite orb_assoc. do 2 f_equal. cbn [HasPrefix].
  destruct (Ascii.eqb a b); [|reflexivity].
  now apply HasPrefix_across_eq.
Qed.

Lemma Contains_append (a rest k : string) (b : ascii) :
  mentions k "&" = false ->
  rest = EmptyString \/ HasPrefix rest "&" = true ->
  Contains (a +:+ rest) (String b k)
  = Contains a (String b k) || Contains rest (String b k).
Proof.
  intros Hk [->|Hrest].
  - now rewrite app_nil_r, Contains_empty, orb_false_r.
  - destruct rest as [|x rest]; [discriminate|].
    cbn [HasPrefix] in Hrest.
    destruct (Ascii.eqb_spec x "&") as [->|]; [|discriminate].
    now apply Contains_split.
Qed.

Lemma parameters_shape (pieces : list string) :
  Forall (fun piece => piece = EmptyString \/ HasPrefix piece "&" = true)
    pieces ->
  fold_right String.append EmptyString pieces = EmptyString
  \/ HasPrefix (fold_right String.append EmptyString pieces) "&" = true.
Proof.
  induction 1 as [|piece pieces Hpiece _ IH]; cbn [fold_right]; [now left|].
  now apply suffix_shape_append.
Qed.

(** A pattern without ["&"] behind its first byte occurs in a sequence of
    parameters only inside one of them. *)
Lemma Contains_parameters (pieces : list string) (b : ascii) (k : string) :
  mentions k "&" = false ->
  Forall (fun piece => piece = EmptyString \/ HasPrefix piece "&" = true)
    pieces ->
  Contains (fold_right String.append EmptyString pieces) (String b k)
  = existsb (fun piece => Contains piece (String b k)) pieces.
Proof.
  intros Hk. induction 1 as [|piece pieces Hpiece Hrest IH];
    cbn [fold_right existsb]; [reflexivity|].
  rewrite Contains_append, IH; [reflexivity|assumption|].
  now apply parameters_shape.
Qed.

Lemma parameter_if_shape (flag : bool) (parameter : string) :
  HasPrefix parameter "&" = true ->
  parameter_if flag parameter = EmptyString
  \/ HasPrefix (parameter_if flag parameter) "&" = true.
Proof. destruct flag; auto. Qed.

Lemma Contains_parameter_if (flag : bool) (parameter : string) (b : ascii)
    (k : string) :
  Contains (parameter_if flag parameter) (String b k)
  = flag && Contains parameter (String b k).
Proof. now destruct flag. Qed.

(** The suffix of direct mode, parameter after parameter. *)
Lemma direct_params_written (c : ConnString) :
  direct_params c
  = fold_right String.append EmptyString
      [parameter_if (SSLSet c) "&tls=true";
       parameter_if (SSLCaFileSet c) ("&tlsCAFile=" +:+ SSLCaFile c);
       parameter_if (SSLClientCertificateKeyFileSet c)
         ("&tlsCertificateKeyFile=" +:+ SSLClientCertificateKeyFile c);
       parameter_if (SSLInsecureSet c) "&tlsInsecure=true";
       write_concern c;
       parameter_if (RetryReadsSet c) "&retryReads=true";
       parameter_if (RetryWritesSet c) "&retryWrites=true"].
Proof.
  unfold direct_params, run.
  destruct (GetQueryParams_written c true []) as (orders & o' & -> & _).
  unfold query_suffix, before_tags, after_tags. cbn [negb fold_right].
  rewrite !andb_false_r. unfold parameter_if at 5 6.
  now rewrite !app_assoc, !app_nil_r.
Qed.

Lemma pretty_Z_bytes (z : Z) (c : ascii) :
  mentions "0123456789-" c = false -> mentions (pretty z) c = false.
Proof.
  intros Hc.
  assert (mentions "0123456789" c = false /\ mentions "-" c = false)
    as [Hdigits Hminus].
  { change "0123456789-" with ("0123456789" +:+ "-") in Hc.
    rewrite mentions_app in Hc. now apply orb_false_elim in Hc. }
  destruct z as [|p|p].
  - change (pretty 0) with "0". cbn [mentions] in *.
    apply orb_false_elim in Hdigits as [-> _]. reflexivity.
  - unfold pretty, pretty_Z, pretty, pretty_positive, pretty, pretty_N.
    destruct (decide (N.pos p = 0%N)); [discriminate|].
    now apply pretty_N_go_bytes.
  - unfold pretty, pretty_Z. rewrite mentions_app, Hminus.
    unfold pretty, pretty_positive, pretty, pretty_N.
    destruct (decide (N.pos p = 0%N)); [discriminate|].
    now rewrite pretty_N_go_bytes.
Qed.

Section DirectSuffix.

Variables (b : ascii) (k : string).

Hypothesis Hseparator : mentions k "&" = false.

Hypothesis Hnumeral : mentions "0123456789-" b = false.

Hypothesis Hfixed :
  Forall (fun parameter => Contains parameter (String b k) = false)
    ["&tls=true"; "&tlsInsecure=true"; "&retryReads=true"; "&retryWrites=true"].

Hypothesis Hkeys :
  Forall (fun key => forall value,
            Contains (key +:+ value) (String b k) = Contains value (String b k))
    ["&tlsCAFile="; "&tlsCertificateKeyFile="; "&w="].

(** A pattern that is in none of the keys occurs in the suffix of direct
    mode exactly when it occurs in one of the values written. *)
Lemma direct_params_hold (c : ConnString) :
  Contains (direct_params c) (String b k) = written_value_holds c (String b k).
Proof.
  inversion Hfixed as [|? ? Htls H1]; subst.
  inversion H1 as [|? ? Hinsecure H2]; subst.
  inversion H2 as [|? ? Hreads H3]; subst.
  inversion H3 as [|? ? Hwrites _]; subst.
  inversion Hkeys as [|? ? Hca K1]; subst.
  inversion K1 as [|? ? Hkey K2]; subst.
  inversion K2 as [|? ? Hw _]; subst.
  assert (Contains (write_concern c) (String b k)
          = negb (WNumberSet c) && Contains (WString c) (String b k)) as Hwrite.
  { unfold write_concern. destruct (WNumberSet c); cbn [negb andb].
    - rewrite Hw. now apply Contains_first_byte, pretty_Z_bytes.
    - destruct (WString c) as [|x w]; [reflexivity|].
      cbn [nonempty parameter_if]. apply Hw. }
  rewrite direct_params_written, Contains_parameters; [|exact Hseparator|].
  - cbn [existsb]. rewrite !Contains_parameter_if, Hwrite.
    rewrite Htls, Hinsecure, Hreads, Hwrites, Hca, Hkey.
    rewrite !andb_false_r, !orb_false_r. cbn [orb].
    unfold written_value_holds. now rewrite orb_assoc.
  - repeat apply List.Forall_cons; try apply List.Forall_nil;
      try (apply parameter_if_shape; reflexivity).
    unfold write_concern. destruct (WNumberSet c); [now right|].
    now apply parameter_if_shape.
Qed.

End DirectSuffix.

(** C8, amended: in direct mode [GetQueryParams] returns, for every
    configuration, a suffix that does not depend on the read-preference
    settings. A [readPreference] or [readPreferenceTags] parameter, or only
    one of these two names, is in the suffix exactly when it is in one of the
    values written: the CA file or the certificate key file, if its flag is
    set, or the named write concern, if no numeric one is set. *)
Theorem direct_mode_without_read_preference (c : ConnString) (o : Oracle) :
  exists params,
    run (GetQueryParams c true) o = Ok params /\
    (forall preference tagsets,
       run (GetQueryParams (with_read_preference c preference tagsets) true) o
       = Ok params) /\
    Forall (fun text => Contains params text = written_value_holds c text)
      ["&readPreference="; "&readPreferenceTags=";
       "readPreference"; "readPreferenceTags"].
Proof.
  exists (direct_params c). split; [|split].
  - unfold run. now rewrite GetQueryParams_direct.
  - intros preference tagsets. unfold run. rewrite GetQueryParams_direct.
    f_equal. unfold direct_params, run, GetQueryParams.
    rewrite !andb_false_r. reflexivity.
  - repeat apply List.Forall_cons; try apply List.Forall_nil;
      (apply direct_params_hold;
       [ reflexivity
       | reflexivity
       | repeat apply List.Forall_cons; try apply List.Forall_nil; reflexivity
       | repeat apply List.Forall_cons; try apply List.Forall_nil;
         intros value; cbn [String.append];
         rewrite !Contains_cons; reflexivity ]).
Qed.

Lemma direct_mode_without_read_preference_witness :
  written_value_holds secondary_config "&readPreference=" = false
  /\ run (GetQueryParams secondary_config true) []
     = Ok "&tls=true&tlsCAFile=/etc/ssl/ca.pem&w=1&retryWrites=true"
  /\ Contains "&tls=true&tlsCAFile=/etc/ssl/ca.pem&w=1&retryWrites=true"
       "&readPreference=" = false.
Proof.
  destruct (direct_mode_without_read_preference secondary_config [])
    as (params & Hrun & _ & Hwithout).
  assert (params = "&tls=true&tlsCAFile=/etc/ssl/ca.pem&w=1&retryWrites=true")
    as ->.
  { pose proof Hrun as E. vm_compute in E. now injection E. }
  split; [reflexivity|]. split; [exact Hrun|].
  exact (Forall_inv Hwithout).
Defined.

(** ** Scheme and credentials *)

Lemma shard_step_password (c : ConnString) (password : string) :
  nonempty (Username c) = false ->
  forall isSRV uris shard,
    shard_step (with_password c password) isSRV uris shard
    = shard_step c isSRV uris shard.
Proof.
  intros Huser isSRV uris shard. unfold shard_step.
  change (Username (with_password c password)) with (Username c).
  revert Huser. destruct (nonempty (Username c)); [discriminate|].
  reflexivity.
Qed.

Lemma direct_uris_password (c : ConnString) (password : string)
    (shard : Shard) :
  nonempty (Username c) = false ->
  direct_uris (with_password c password) shard = direct_uris c shard.
Proof.
  intros Huser. unfold direct_uris, direct_uri, credentials, direct_auth.
  change (Username (with_password c password)) with (Username c).
  rewrite Huser. reflexivity.
Qed.

(** Every URI of both modes starts with [mongodb://], also when the
    connection string is an SRV one, followed by the user name, a [":"], the
    escaped password and an ["@"] when a user name is set. Without a user
    name the password is not read: with any other password both builders
    return the same. *)
Theorem uris_start_with_credentials (shards : list Shard) (c : ConnString)
    (o : Oracle) (uris : list string) (err : option error) :
  run (GetAllShardURIs shards c) o = Ok (uris, err)
  \/ run (GetAllServerURIs shards c) o = Ok (uris, err) ->
  Forall (fun uri =>
            HasPrefix uri
              ("mongodb://"
               +:+ (if nonempty (Username c)
                    then Username c +:+ ":" +:+ QueryEscape (Password c) +:+ "@"
                    else EmptyString)) = true)
    uris
  /\ (nonempty (Username c) = false ->
      forall password,
        run (GetAllShardURIs shards (with_password c password)) o
        = run (GetAllShardURIs shards c) o
        /\ run (GetAllServerURIs shards (with_password c password)) o
           = run (GetAllServerURIs shards c) o).
Proof.
  fold (credentials c). intros Hrun. split.
  - destruct (separator_cases shards) as [Hall|Hex].
    + destruct Hrun as [Hrun|Hrun].
      * destruct (GetAllShardURIs_ok shards c o Hall) as (uris' & Hrun' & Huris).
        rewrite Hrun' in Hrun. injection Hrun as <- _.
        apply (discovery_uris_all _ c shards); [|exact Huris].
        intros shard params. unfold discovery_uri, discovery_head.
        rewrite <- !app_assoc. rewrite !app_assoc.
        replace ("mongodb://" +:+ credentials c +:+ allHosts_of shard +:+ "/"
                 +:+ Database c +:+ "?replicaSet=" +:+ setName_of shard
                 +:+ discovery_auth c (HasPrefix (Original c) "mongodb+srv")
                 +:+ params)
          with (("mongodb://" +:+ credentials c)
                +:+ (allHosts_of shard +:+ "/" +:+ Database c +:+ "?replicaSet="
                     +:+ setName_of shard
                     +:+ discovery_auth c (HasPrefix (Original c) "mongodb+srv")
                     +:+ params))
          by (norm_app; reflexivity).
        apply HasPrefix_app.
      * rewrite GetAllServerURIs_ok in Hrun by assumption.
        injection Hrun as <- _.
        apply direct_uris_all. intros setName finalHost. unfold direct_uri.
        replace ("mongodb://" +:+ credentials c +:+ finalHost +:+ "/?replicaSet="
                 +:+ setName +:+ "&"
                 +:+ direct_auth c (HasPrefix (Original c) "mongodb+srv")
                 +:+ direct_params c)
          with (("mongodb://" +:+ credentials c)
                +:+ (finalHost +:+ "/?replicaSet=" +:+ setName +:+ "&"
                     +:+ direct_auth c (HasPrefix (Original c) "mongodb+srv")
                     +:+ direct_params c))
          by (norm_app; reflexivity).
        apply HasPrefix_app.
    + rewrite GetAllShardURIs_panics, GetAllServerURIs_panics in Hrun
        by assumption.
      destruct Hrun; discriminate.
  - intros Huser password. split.
    + unfold run, GetAllShardURIs, bind.
      change (Original (with_password c password)) with (Original c).
      rewrite (for_each_ext _ (shard_step c (Index (Original c) "mongodb+srv" =? 0))
                 shards shards); [reflexivity|].
      apply Forall_Forall2_diag, Forall_forall. intros shard _ done.
      now apply shard_step_password.
    + destruct (separator_cases shards) as [Hall|Hex].
      * rewrite !GetAllServerURIs_ok by assumption. do 3 f_equal.
        apply map_ext. intros shard. now apply direct_uris_password.
      * now rewrite !GetAllServerURIs_panics.
Qed.

Lemma uris_start_with_credentials_witness :
  run (GetAllShardURIs [example_shard] srv_config) []
  = Ok (["mongodb://u:p@h1:27018,h2:27018/admin?replicaSet=shard01&authSource=admin&tls=true"],
        None)
  /\ Forall (fun uri => HasPrefix uri "mongodb://u:p@" = true)
       ["mongodb://u:p@h1:27018,h2:27018/admin?replicaSet=shard01&authSource=admin&tls=true"].
Proof.
  assert (run (GetAllShardURIs [example_shard] srv_config) []
          = Ok (["mongodb://u:p@h1:27018,h2:27018/admin?replicaSet=shard01&authSource=admin&tls=true"],
                None)) as Hrun
    by (vm_compute; reflexivity).
  split; [exact Hrun|].
  exact (proj1 (uris_start_with_credentials [example_shard] srv_config [] _ _
                  (or_introl Hrun))).
Defined.

(** ** Where the read-preference tags are written *)

(** In discovery mode with at least one tag set, the suffix of
    [GetQueryParams] is, in this order: the TLS parameters and the read
    preference; the key [&readPreferenceTags=] with the tags of all tag sets,
    tag set after tag set and, inside a tag set, in some order of its
    entries; the write concern and the retry flags, with which the next
    parameter starts, if there is one. Whatever the orders, the comma comes
    after every tag but the first: one tag is written as [key:value], and
    with more tags the first two are not separated and the tags end in a
    comma. *)
Theorem readPreferenceTags_written (c : ConnString) (o : Oracle) :
  ReadPreferenceTagSets c <> [] ->
  exists orders,
    run (GetQueryParams c false) o
    = Ok (before_tags c false
          +:+ "&readPreferenceTags=" +:+ tags_written (concat orders)
          +:+ after_tags c)
    /\ Forall2 visits (ReadPreferenceTagSets c) orders
    /\ (after_tags c = EmptyString \/ HasPrefix (after_tags c) "&" = true).
Proof.
  intros Hsets.
  destruct (GetQueryParams_written c false o) as (orders & o' & E & Horders).
  exists orders. unfold run. rewrite E. split; [|split; [exact Horders|]].
  - unfold query_suffix.
    assert ((0 <? Z.of_nat (length (ReadPreferenceTagSets c))) && negb false
            = true) as ->.
    { destruct (ReadPreferenceTagSets c); [contradiction|reflexivity]. }
    unfold parameter_if at 1. now rewrite !app_assoc.
  - unfold after_tags.
    repeat apply suffix_shape_append;
      try (apply parameter_if_shape; reflexivity).
    unfold write_concern. destruct (WNumberSet c); [now right|].
    now apply parameter_if_shape.
Qed.

Lemma readPreferenceTags_written_witness :
  ReadPreferenceTagSets secondary_config <> []
  /\ exists orders,
       run (GetQueryParams secondary_config false) []
       = Ok (before_tags secondary_config false
             +:+ "&readPreferenceTags=" +:+ tags_written (concat orders)
             +:+ after_tags secondary_config)
       /\ Forall2 visits (ReadPreferenceTagSets secondary_config) orders
       /\ (after_tags secondary_config = EmptyString
           \/ HasPrefix (after_tags secondary_config) "&" = true).
Proof.
  assert (ReadPreferenceTagSets secondary_config <> []) as Hsets
    by discriminate.
  split; [exact Hsets|].
  exact (readPreferenceTags_written secondary_config [] Hsets).
Defined.
